(** * Evol_Align: the Alignment-API to SSSOM converter (OAEITTL2SSSOM.py)

    A shallow embedding of [local_name], [find_predicates_and_classes],
    [convert_alignment_file] and [main], of the folder converter of
    rdfxml2turtle.py and of the review functions of alignement_review.py,
    followed by the properties of the converter that the specification
    states and by further properties read off the scripts.

    Conventions of the embedding:
    - an RDF term is a [Term]; a graph is the list of its triples in the order
      in which the store enumerates them;
    - the output graph is a list used as a set: [graph_add] inserts a triple
      only when it is not there yet, as [Graph.add] does;
    - Python's [print] appends a line to the console of the [World];
      [Graph.serialize] appends a written file to it;
    - an exception is the [Raised] outcome of a call;
    - the built-ins whose value the script does not determine ([hash] of a
      pair of terms, [float] of a string, the truth value of an rdflib
      literal) are the fields of a [Builtins] record, the variable of the
      section [Converter];
    - the text of an input file is seen through the parser: [parsed] is the
      graph that [Graph.parse] builds, or [None] when it raises. *)

From Stdlib Require Import List Finite Bool Arith ZArith Lia.
From Stdlib Require Import Ascii String DecimalString.
From Stdlib Require Import Sorted Permutation.
Import ListNotations.
Open Scope string_scope.

(** ** Python string operations used by the script *)

Module PyStr.

Definition rev_string (s : string) : string :=
  string_of_list_ascii (rev (list_ascii_of_string s)).

(** [s.endswith(suf)] *)
Definition endswith (s suf : string) : bool :=
  prefix (rev_string suf) (rev_string s).

(** [c in s] for a one-character [c] *)
Fixpoint contains (c : ascii) (s : string) : bool :=
  match s with
  | EmptyString => false
  | String a r => if Ascii.eqb a c then true else contains c r
  end.

(** The text after the last [c], when [c] occurs. *)
Fixpoint after_last_opt (c : ascii) (s : string) : option string :=
  match s with
  | EmptyString => None
  | String a r =>
      match after_last_opt c r with
      | Some t => Some t
      | None => if Ascii.eqb a c then Some r else None
      end
  end.

(** [s.rsplit(c, 1)[-1]]: the text after the last [c], all of [s] without. *)
Definition rsplit_last (c : ascii) (s : string) : string :=
  match after_last_opt c s with
  | Some t => t
  | None => s
  end.

(** [s.rstrip(c)] *)
Fixpoint rstrip (c : ascii) (s : string) : string :=
  match s with
  | EmptyString => EmptyString
  | String a r =>
      match rstrip c r with
      | EmptyString => if Ascii.eqb a c then EmptyString else String a EmptyString
      | r' => String a r'
      end
  end.

(** [s.rfind(c)], counted from the left; [None] for -1. *)
Fixpoint rfind (c : ascii) (s : string) : option nat :=
  match s with
  | EmptyString => None
  | String a r =>
      match rfind c r with
      | Some i => Some (S i)
      | None => if Ascii.eqb a c then Some 0 else None
      end
  end.

(** Truth value of a [str]. *)
Definition nonempty (s : string) : bool :=
  match s with
  | EmptyString => false
  | String _ _ => true
  end.

(** [str(n)] for an integer. *)
Definition of_Z (n : Z) : string := NilZero.string_of_int (Z.to_int n).

(** [repr] of a list of the role names (plain identifiers, so that the
    [repr] of each is the name between single quotes). *)
Definition repr_names (l : list string) : string :=
  "[" ++ String.concat ", " (map (fun k => "'" ++ k ++ "'") l) ++ "]".

End PyStr.

(** ** pathlib *)

Module PyPath.

(** [PurePath.stem]: the name without its last suffix. *)
Definition stem (name : string) : string :=
  match PyStr.rfind "."%char name with
  | Some i =>
      if andb (Nat.ltb 0 i) (Nat.ltb i (String.length name - 1))
      then substring 0 i name
      else name
  | None => name
  end.

(** [dir / name], as [str] prints it. *)
Definition join (dir name : string) : string := dir ++ "/" ++ name.

End PyPath.

(** ** rdflib terms and graphs *)

Inductive Term : Type :=
| URIRef (iri : string)
| BNode (id : string)
| Literal (lexical : string) (datatype : option string) (lang : option string).

Definition Term_eq_dec (a b : Term) : {a = b} + {a <> b}.
Proof. repeat decide equality. Defined.

Definition Term_eqb (a b : Term) : bool :=
  if Term_eq_dec a b then true else false.

Definition Triple : Type := (Term * Term * Term)%type.

Definition Triple_eq_dec (a b : Triple) : {a = b} + {a <> b}.
Proof. repeat decide equality. Defined.

Definition Graph : Type := list Triple.

Definition isURIRef (t : Term) : bool :=
  match t with URIRef _ => true | _ => false end.

Definition isLiteral (t : Term) : bool :=
  match t with Literal _ _ _ => true | _ => false end.

(** [str(t)] *)
Definition str (t : Term) : string :=
  match t with
  | URIRef s => s
  | BNode s => s
  | Literal s _ _ => s
  end.

(** [g.add(t)] on a graph held as a duplicate-free list. *)
Definition graph_add (g : Graph) (t : Triple) : Graph :=
  if in_dec Triple_eq_dec t g then g else (g ++ [t])%list.

(** [set(l)]: the distinct elements of [l] (Python fixes no order on them). *)
Definition pyset (l : list Term) : list Term := nodup Term_eq_dec l.

(** Namespaces. *)
Module NS.
Definition RDF (n : string) : Term :=
  URIRef ("http://www.w3.org/1999/02/22-rdf-syntax-ns#" ++ n).
Definition OWL (n : string) : Term :=
  URIRef ("http://www.w3.org/2002/07/owl#" ++ n).
Definition XSD (n : string) : string :=
  "http://www.w3.org/2001/XMLSchema#" ++ n.
Definition SKOS (n : string) : Term :=
  URIRef ("http://www.w3.org/2004/02/skos/core#" ++ n).
Definition SSSOM (n : string) : Term :=
  URIRef ("https://w3id.org/sssom/" ++ n).
Definition SEMAPV (n : string) : Term :=
  URIRef ("https://w3id.org/semapv/vocab/" ++ n).
End NS.

Definition RDF_type : Term := NS.RDF "type".

(** ** local_name *)

Definition local_name (uri : Term) : string :=
  let s := str uri in
  if PyStr.contains "#"%char s
  then PyStr.rsplit_last "#"%char s
  else PyStr.rsplit_last "/"%char (PyStr.rstrip "/"%char s).

(** ** Graph queries with rdflib's wildcard: [None] matches every term *)

Definition matches (pat : option Term) (t : Term) : bool :=
  match pat with
  | None => true
  | Some u => Term_eqb t u
  end.

(** [g.triples((s, p, o))] *)
Definition triples (g : Graph) (s p o : option Term) : list Triple :=
  filter (fun t => matches s (fst (fst t)) && matches p (snd (fst t)) && matches o (snd t)) g.

(** [g.objects(s, p)] *)
Definition objects (g : Graph) (s : Term) (p : option Term) : list Term :=
  map (fun t => snd t) (triples g (Some s) p None).

(** [g.value(s, p)]: some object of [(s, p)]; [None] when there is none, and
    when the predicate itself is [None]. *)
Definition value (g : Graph) (s : Term) (p : option Term) : option Term :=
  match p with
  | None => None
  | Some _ => hd_error (objects g s p)
  end.

(** ** find_predicates_and_classes *)

Module Discovery.

Record Roles : Type := mkRoles {
onto1_pred : option Term;
onto2_pred : option Term;
map_pred : option Term;
entity1_pred : option Term;
entity2_pred : option Term;
measure_pred : option Term;
relation_pred : option Term;
cid_pred : option Term;
alignment_class : option Term;
cell_class : option Term
}.

Definition no_roles : Roles :=
mkRoles None None None None None None None None None None.

(** The [if]/[elif] chain over the local name of the predicate. *)
Definition scan_predicate (r : Roles) (p : Term) : Roles :=
let lname_p := local_name p in
let '(mkRoles o1 o2 mp e1 e2 ms rl cd al ce) := r in
if PyStr.endswith lname_p "onto1" then mkRoles (Some p) o2 mp e1 e2 ms rl cd al ce
else if PyStr.endswith lname_p "onto2" then mkRoles o1 (Some p) mp e1 e2 ms rl cd al ce
else if PyStr.endswith lname_p "map" then mkRoles o1 o2 (Some p) e1 e2 ms rl cd al ce
else if PyStr.endswith lname_p "entity1" then mkRoles o1 o2 mp (Some p) e2 ms rl cd al ce
else if PyStr.endswith lname_p "entity2" then mkRoles o1 o2 mp e1 (Some p) ms rl cd al ce
else if PyStr.endswith lname_p "measure" then mkRoles o1 o2 mp e1 e2 (Some p) rl cd al ce
else if PyStr.endswith lname_p "relation" then mkRoles o1 o2 mp e1 e2 ms (Some p) cd al ce
else if PyStr.endswith lname_p "cid" then mkRoles o1 o2 mp e1 e2 ms rl (Some p) al ce
else r.

(** The second [if] of the loop body: the classes Alignment and Cell. *)
Definition scan_class (r : Roles) (p o : Term) : Roles :=
let '(mkRoles o1 o2 mp e1 e2 ms rl cd al ce) := r in
if Term_eqb p RDF_type && isURIRef o then
  let lname_o := local_name o in
  if PyStr.endswith lname_o "Alignment" then mkRoles o1 o2 mp e1 e2 ms rl cd (Some o) ce
  else if PyStr.endswith lname_o "Cell" then mkRoles o1 o2 mp e1 e2 ms rl cd al (Some o)
  else r
else r.

Definition scan_triple (r : Roles) (t : Triple) : Roles :=
let '(_, p, o) := t in
scan_class (scan_predicate r p) p o.

(** The local variables of [find_predicates_and_classes] after its loop. *)
Definition discovered (g : Graph) : Roles :=
fold_left scan_triple (triples g None None None) no_roles.

(** A Python [dict] with string keys, in insertion order. *)
Definition Dict : Type := list (string * option Term).

(** [d.get(k)] and, for a key that is there, [d[k]]: the value under [k];
  Python's [None] is [None]. *)
Fixpoint dict_get (d : Dict) (k : string) : option Term :=
match d with
| [] => None
| (k', v) :: d' => if String.eqb k' k then v else dict_get d' k
end.

Definition find_predicates_and_classes (g : Graph) : Dict :=
let r := discovered g in
[ ("onto1", onto1_pred r);
  ("onto2", onto2_pred r);
  ("map", map_pred r);
  ("entity1", entity1_pred r);
  ("entity2", entity2_pred r);
  ("measure", measure_pred r);
  ("relation", relation_pred r);
  ("cid", cid_pred r);
  ("Alignment", alignment_class r);
  ("Cell", cell_class r) ].

End Discovery.

(** ** The world of a run: console lines and files written *)

Record Path : Type := mkPath { parent : string; name : string }.

Definition path_str (p : Path) : string := PyPath.join (parent p) (name p).

(** What [g_out.serialize] writes: the prefixes bound and the triples. *)
Record OutGraph : Type := mkOutGraph {
  namespaces : list (string * string);
  out_triples : Graph
}.

Record World : Type := mkWorld {
  console : list string;
  written : list (string * OutGraph)
}.

Inductive Exn : Type :=
| ParseError
| SystemExit (msg : string).

Inductive Outcome : Type :=
| Returned
| Raised (e : Exn).

Definition print (line : string) (w : World) : World :=
  mkWorld (console w ++ [line])%list (written w).

Definition serialize (destination : string) (g : OutGraph) (w : World) : World :=
  mkWorld (console w) (written w ++ [(destination, g)])%list.

(** An input file: its path and what [Graph.parse(in_path, format="turtle")]
    makes of its content, [None] when the parser raises. *)
Record InFile : Type := mkInFile {
  in_path : Path;
  parsed : option Graph
}.

(** The built-ins that the script calls and does not determine. *)
Record Builtins : Type := mkBuiltins {
  (** [hash((subj, obj))] *)
  py_hash : Term -> Term -> Z;
  (** Python floats; [float(s)], [None] for [ValueError]; the lexical form
      of [Literal(v, datatype=XSD.double)] *)
  PyFloat : Type;
  py_float : string -> option PyFloat;
  float_lexical : PyFloat -> string;
  (** [bool] of an rdflib [Literal] *)
  literal_bool : string -> option string -> option string -> bool
}.

(** ** convert_alignment_file *)

Definition required_keys : list string :=
  [ "onto1"; "onto2"; "map"; "entity1"; "entity2"; "measure"; "relation";
    "Alignment" ].

Definition is_none {A : Type} (o : option A) : bool :=
  match o with
  | None => true
  | Some _ => false
  end.

(** The local variables that hold the discovered predicates and class. *)
Record Preds : Type := mkPreds {
  onto1_pred : option Term;
  onto2_pred : option Term;
  map_pred : option Term;
  entity1_pred : option Term;
  entity2_pred : option Term;
  measure_pred : option Term;
  relation_pred : option Term;
  cid_pred : option Term;
  alignment_class : option Term
}.

(** The locals that the two loops update. *)
Record Locals : Type := mkLocals {
  g_out : Graph;
  all_mapping_nodes : list Term;
  subj_source : option Term;
  obj_source : option Term
}.

(** [nm.bind(prefix, namespace)], six times. *)
Definition out_namespaces : list (string * string) :=
  [ ("rdf", str (NS.RDF ""));
    ("owl", str (NS.OWL ""));
    ("xsd", NS.XSD "");
    ("skos", str (NS.SKOS ""));
    ("sssom", str (NS.SSSOM ""));
    ("semapv", str (NS.SEMAPV "")) ].

Section Converter.

Variable B : Builtins.

(** Truth value of a term: a [URIRef] or [BNode] is a [str]. *)
Definition truthy (t : Term) : bool :=
  match t with
  | URIRef s => PyStr.nonempty s
  | BNode s => PyStr.nonempty s
  | Literal l d g => literal_bool B l d g
  end.

(** [str(cid_val) if isinstance(cid_val, Literal)
     else (cid_val and str(cid_val)) or ""] *)
Definition cid_str_of (cid_val : option Term) : string :=
  match cid_val with
  | Some t =>
      if isLiteral t then str t
      else if truthy t
           then (if PyStr.nonempty (str t) then str t else "")
           else ""
  | None => ""
  end.

(** The mapping IRI, from the correspondence id or from the hash. *)
Definition mapping_node_of (mapping_set_iri : Term) (cid_str : string)
           (subj obj : Term) : Term :=
  if PyStr.nonempty cid_str
  then URIRef (str mapping_set_iri ++ "#m" ++ cid_str)
  else URIRef (str mapping_set_iri ++ "#m"
               ++ PyStr.of_Z (Z.abs (py_hash B subj obj))).

(** ["="] to [skos:exactMatch], anything else to [skos:relatedMatch]. *)
Definition pred_uri_of (rel : option Term) : Term :=
  match rel with
  | Some r =>
      if isLiteral r && String.eqb (str r) "="
      then NS.SKOS "exactMatch"
      else NS.SKOS "relatedMatch"
  | None => NS.SKOS "relatedMatch"
  end.

(** The [try] block on the measure: the triple to add, if any. *)
Definition confidence_adds (mapping_node : Term) (measure : option Term)
  : list Triple :=
  match measure with
  | None => []
  | Some m =>
      match py_float B (str m) with
      | Some conf_val =>
          [ (mapping_node, NS.SSSOM "confidence",
             Literal (float_lexical B conf_val) (Some (NS.XSD "double")) None) ]
      | None => []
      end
  end.

(** The triples that the body of the cell loop hands to [g_out.add] for a
    complete cell, in program order. *)
Definition cell_adds (mapping_set_iri : Term) (cid_val : option Term)
           (subj obj : Term) (measure rel : option Term) : list Triple :=
  let cid_str := cid_str_of cid_val in
  let mapping_node := mapping_node_of mapping_set_iri cid_str subj obj in
  ([ (mapping_node, RDF_type, NS.SSSOM "Mapping") ]
   ++ (if PyStr.nonempty cid_str
       then [ (mapping_node, NS.SSSOM "record_id", Literal cid_str None None) ]
       else [])
   ++ [ (mapping_node, NS.SSSOM "subject_id", subj);
        (mapping_node, NS.SSSOM "predicate_id", pred_uri_of rel);
        (mapping_node, NS.SSSOM "object_id", obj) ]
   ++ confidence_adds mapping_node measure
   ++ [ (mapping_node, NS.SSSOM "mapping_justification",
         NS.SEMAPV "UnspecifiedMatching") ])%list.

Section Loops.

Variable g_in : Graph.
Variable v : Preds.
Variable mapping_set_iri : Term.

(** [g_in.value(cell, cid_pred) if cid_pred is not None else None] *)
Definition cid_val_of (cell : Term) : option Term :=
  match cid_pred v with
  | Some _ => value g_in cell (cid_pred v)
  | None => None
  end.

(** One iteration of [for cell in g_in.objects(aln, map_pred)]. *)
Definition cell_body (st : Locals) (cell : Term) : Locals :=
  let cid_val := cid_val_of cell in
  let subj := value g_in cell (entity1_pred v) in
  let obj := value g_in cell (entity2_pred v) in
  let measure := value g_in cell (measure_pred v) in
  let rel := value g_in cell (relation_pred v) in
  match subj, obj with
  | Some subj, Some obj =>
      let mapping_node :=
        mapping_node_of mapping_set_iri (cid_str_of cid_val) subj obj in
      mkLocals
        (fold_left graph_add
           (cell_adds mapping_set_iri cid_val subj obj measure rel)
           (g_out st))
        (all_mapping_nodes st ++ [mapping_node])%list
        (subj_source st) (obj_source st)
  | _, _ => st
  end.

(** Truth value of what [g_in.value] returns: [None] is false. *)
Definition truthy_opt (o : option Term) : bool :=
  match o with
  | Some t => truthy t
  | None => false
  end.

(** One iteration of [for aln in alignments]. *)
Definition aln_body (st : Locals) (aln : Term) : Locals :=
  let s1 := value g_in aln (onto1_pred v) in
  let s2 := value g_in aln (onto2_pred v) in
  let subj_source' :=
    if truthy_opt s1 && is_none (subj_source st) then s1 else subj_source st in
  let obj_source' :=
    if truthy_opt s2 && is_none (obj_source st) then s2 else obj_source st in
  fold_left cell_body (objects g_in aln (map_pred v))
    (mkLocals (g_out st) (all_mapping_nodes st) subj_source' obj_source').

(** [set(s for s, _, _ in g_in.triples((None, RDF.type, alignment_class)))] *)
Definition alignments_of : list Term :=
  pyset (map (fun t => fst (fst t))
             (triples g_in None (Some RDF_type) (alignment_class v))).

(** The locals after the loop over the alignments. *)
Definition after_loops : Locals :=
  let g0 := graph_add [] (mapping_set_iri, RDF_type, NS.OWL "Ontology") in
  let g0 := graph_add g0 (mapping_set_iri, RDF_type, NS.SSSOM "MappingSet") in
  fold_left aln_body alignments_of (mkLocals g0 [] None None).

(** The output graph at the time it is serialized. *)
Definition final_graph : Graph :=
  let st := after_loops in
  let g1 :=
    match subj_source st with
    | Some s => graph_add (g_out st) (mapping_set_iri, NS.SSSOM "subject_source", s)
    | None => g_out st
    end in
  let g2 :=
    match obj_source st with
    | Some s => graph_add g1 (mapping_set_iri, NS.SSSOM "object_source", s)
    | None => g1
    end in
  fold_left (fun g m => graph_add g (mapping_set_iri, NS.SSSOM "mappings", m))
            (pyset (all_mapping_nodes st)) g2.

End Loops.

(** The assignments [onto1_pred = preds["onto1"]] to
    [alignment_class = preds["Alignment"]]; [preds["Cell"]] is not read. *)
Definition preds_of (preds : Discovery.Dict) : Preds :=
  mkPreds (Discovery.dict_get preds "onto1")
          (Discovery.dict_get preds "onto2")
          (Discovery.dict_get preds "map")
          (Discovery.dict_get preds "entity1")
          (Discovery.dict_get preds "entity2")
          (Discovery.dict_get preds "measure")
          (Discovery.dict_get preds "relation")
          (Discovery.dict_get preds "cid")
          (Discovery.dict_get preds "Alignment").

(** [missing = [k for k in required_keys if preds.get(k) is None]] *)
Definition missing_of (preds : Discovery.Dict) : list string :=
  filter (fun k => is_none (Discovery.dict_get preds k)) required_keys.

(** [URIRef(f"http://example.org/mappings/{in_path.stem}")] *)
Definition mapping_set_iri_of (in_path : Path) : Term :=
  URIRef ("http://example.org/mappings/" ++ PyPath.stem (name in_path)).

Definition convert_alignment_file (f : InFile) (out_path : Path) (w : World)
  : Outcome * World :=
  let w := print ("Processing " ++ path_str (in_path f) ++ " -> "
                  ++ path_str out_path) w in
  match parsed f with
  | None => (Raised ParseError, w)
  | Some g_in =>
      let preds := Discovery.find_predicates_and_classes g_in in
      let missing := missing_of preds in
      match missing with
      | _ :: _ =>
          (Returned,
           print ("  [WARN] Missing expected elements in " ++ name (in_path f)
                  ++ ": " ++ PyStr.repr_names missing ++ ". Skipping.") w)
      | [] =>
          let v := preds_of preds in
          match alignments_of g_in v with
          | [] =>
              (Returned,
               print ("  [WARN] No :Alignment instances found in "
                      ++ name (in_path f) ++ ". Skipping.") w)
          | _ :: _ =>
              let mapping_set_iri := mapping_set_iri_of (in_path f) in
              let g := final_graph g_in v mapping_set_iri in
              let w := serialize (path_str out_path)
                                 (mkOutGraph out_namespaces g) w in
              (Returned, print ("  [OK] Wrote " ++ path_str out_path) w)
          end
      end
  end.

(** ** main *)

(** [sorted] on the names of one directory. *)
Fixpoint insert_sorted (f : string * option Graph)
         (l : list (string * option Graph)) : list (string * option Graph) :=
  match l with
  | [] => [f]
  | h :: t =>
      if String.leb (fst f) (fst h) then f :: h :: t
      else h :: insert_sorted f t
  end.

Definition sorted (l : list (string * option Graph))
  : list (string * option Graph) :=
  fold_right insert_sorted [] l.

(** [input_dir.glob("*.ttl")] over the entries of the directory. *)
Definition glob_ttl (entries : list (string * option Graph))
  : list (string * option Graph) :=
  filter (fun e => PyStr.endswith (fst e) ".ttl") entries.

(** The [for] loop of [main]: an exception ends it. *)
Fixpoint for_each_ttl (input_dir out_dir : string)
         (paths : list (string * option Graph)) (w : World)
  : Outcome * World :=
  match paths with
  | [] => (Returned, w)
  | (ttl_name, content) :: rest =>
      let ttl_path := mkPath input_dir ttl_name in
      let out_path := mkPath out_dir (PyPath.stem ttl_name ++ "_sssom.ttl") in
      match convert_alignment_file (mkInFile ttl_path content) out_path w with
      | (Returned, w') => for_each_ttl input_dir out_dir rest w'
      | (Raised e, w') => (Raised e, w')
      end
  end.

(** [main]: [listing] is the content of [input_dir], [None] when it is not
    a directory; each entry is a file name with the parse of its text. *)
Definition main (input_dir : string) (out_dir_arg : option string)
           (listing : option (list (string * option Graph))) (w : World)
  : Outcome * World :=
  let out_dir :=
    match out_dir_arg with
    | Some d => if PyStr.nonempty d then d else input_dir
    | None => input_dir
    end in
  match listing with
  | None =>
      (Raised (SystemExit ("Input path is not a directory: " ++ input_dir)), w)
  | Some entries =>
      for_each_ttl input_dir out_dir (sorted (glob_ttl entries)) w
  end.

End Converter.

(** ** A sample run *)

Module Sample.

(** Stand-ins for the built-ins, to run the model: a hash from the lengths
    of the two IRIs, and a [float] that reads plain decimals
    ([digits.digits]) and keeps their text. *)
Definition is_digit (c : ascii) : bool :=
  let n := nat_of_ascii c in (48 <=? n)%nat && (n <=? 57)%nat.

Fixpoint all_digits (s : string) : bool :=
  match s with
  | EmptyString => true
  | String c r => is_digit c && all_digits r
  end.

Definition decimal (s : string) : option string :=
  match PyStr.rfind "."%char s with
  | Some i =>
      let int_part := substring 0 i s in
      let frac_part := substring (S i) (String.length s - S i) s in
      if PyStr.nonempty int_part && PyStr.nonempty frac_part
         && all_digits int_part && all_digits frac_part
      then Some s else None
  | None => if PyStr.nonempty s && all_digits s then Some (s ++ ".0") else None
  end.

Definition builtins : Builtins :=
  mkBuiltins
    (fun s o => (- Z.of_nat (String.length (str s) + 2 * String.length (str o)))%Z)
    string decimal (fun v => v)
    (fun l _ _ => PyStr.nonempty l).

Definition api (n : string) : Term :=
  URIRef ("http://knowledgeweb.semanticweb.org/heterogeneity/alignment" ++ n).

Definition aln : Term := BNode "aln".
Definition cell1 : Term := BNode "c1".
Definition cell2 : Term := BNode "c2".
Definition plain (s : string) : Term := Literal s None None.

Definition header : Graph :=
  [ (aln, RDF_type, api "Alignment");
    (aln, api "onto1", URIRef "http://a/");
    (aln, api "onto2", URIRef "http://b/") ].

Definition cell (c : Term) (e1 e2 rel measure : string) : Graph :=
  [ (aln, api "map", c);
    (c, RDF_type, api "Cell");
    (c, api "entity1", URIRef e1);
    (c, api "entity2", URIRef e2);
    (c, api "relation", plain rel);
    (c, api "measure", plain measure) ].

Definition with_cid (c : Term) (cid : string) : Graph :=
  [ (c, URIRef "http://exmo.inrialpes.fr/align/ext/1.0/cid", plain cid) ].

(** One cell: relation "=", measure "0.95", cid "1". *)
Definition one_cell : Graph :=
  (header ++ cell cell1 "http://a/x" "http://b/y" "=" "0.95"
   ++ with_cid cell1 "1")%list.

Definition w0 : World := mkWorld [] [].

Definition run (stem : string) (g : option Graph) : Outcome * World :=
  convert_alignment_file builtins
    (mkInFile (mkPath "in" (stem ++ ".ttl")) g)
    (mkPath "out" (stem ++ "_sssom.ttl")) w0.

End Sample.

(** ** rdfxml2turtle.py: the batch driver of the RDF/XML converter *)

Module RdfXml2Turtle.

(** An entry of the folder: its name and what [Graph().parse(str(f),
    format="xml")] makes of it, the text of the exception or the graph. *)
Definition Entry : Type := (string * (string + OutGraph))%type.

(** [f.with_suffix(".ttl").name] *)
Definition with_suffix_ttl (fname : string) : string :=
  PyPath.stem fname ++ ".ttl".

(** The body of [for f in rdf_files]: the [try] and its [except]. *)
Definition convert_one (folder : string) (f : Entry) (w : World) : World :=
  let out := with_suffix_ttl (fst f) in
  match snd f with
  | inr g =>
      let w := serialize (PyPath.join folder out) g w in
      print ("Converted: " ++ fst f ++ " -> " ++ out) w
  | inl e => print ("Failed to convert " ++ fst f ++ ": " ++ e) w
  end.

(** [folder] is the resolved path, [entries] its content. *)
Definition convert_folder (folder : string) (entries : list Entry) (w : World)
  : Outcome * World :=
  let rdf_files := filter (fun e => PyStr.endswith (fst e) ".rdf") entries in
  match rdf_files with
  | [] => (Returned, print ("No .rdf files found in " ++ folder) w)
  | _ :: _ => (Returned, fold_left (fun w f => convert_one folder f w) rdf_files w)
  end.

End RdfXml2Turtle.

(** * Definitions used by the statements *)

(** ** The loops seen cell by cell *)

Section Views.

Variable B : Builtins.
Variable g_in : Graph.
Variable v : Preds.
Variable mapping_set_iri : Term.

(** The entities of a cell, when it has both. *)
Definition entities_of (cell : Term) : option (Term * Term) :=
  match value g_in cell (entity1_pred v), value g_in cell (entity2_pred v) with
  | Some subj, Some obj => Some (subj, obj)
  | _, _ => None
  end.

(** A cell is complete when the body does not [continue]. *)
Definition complete (cell : Term) : bool := negb (is_none (entities_of cell)).

(** The mapping IRI that the body computes for a complete cell. *)
Definition node_of (cell : Term) : list Term :=
  match entities_of cell with
  | Some (subj, obj) =>
      [ mapping_node_of B mapping_set_iri
          (cid_str_of B (cid_val_of g_in v cell)) subj obj ]
  | None => []
  end.

(** The triples that the body hands to [g_out.add] for a cell. *)
Definition adds_of (cell : Term) : list Triple :=
  match entities_of cell with
  | Some (subj, obj) =>
      cell_adds B mapping_set_iri (cid_val_of g_in v cell) subj obj
        (value g_in cell (measure_pred v)) (value g_in cell (relation_pred v))
  | None => []
  end.

(** The cells in the order in which the two loops visit them. *)
Definition visited : list Term :=
  flat_map (fun aln => objects g_in aln (map_pred v)) (alignments_of g_in v).

(** What follows [#m] in the IRI of a complete cell: the cid string when
    it is not empty, and the decimal of the absolute hash otherwise. *)
Definition iri_suffix (cell : Term) : string :=
  match entities_of cell with
  | Some (subj, obj) =>
      let cid_str :=
        match cid_val_of g_in v cell with Some cid => str cid | None => "" end in
      if PyStr.nonempty cid_str then cid_str
      else PyStr.of_Z (Z.abs (py_hash B subj obj))
  | None => ""
  end.

Definition complete_cells : list Term :=
  filter complete visited.

End Views.

(** ** Triples by predicate, resources by type *)

Definition has_predicate (p : Term) (t : Triple) : bool :=
  Term_eqb (snd (fst t)) p.

(** The resources of a graph that have the type [cls]. *)
Definition resources_typed (g : Graph) (cls : Term) : list Term :=
  pyset (map (fun t => fst (fst t)) (triples g None (Some RDF_type) (Some cls))).

(** ** Console lines *)

(** The line that reports the missing roles. *)
Definition missing_warning (p : Path) (missing : list string) : string :=
  "  [WARN] Missing expected elements in " ++ name p ++ ": "
  ++ PyStr.repr_names missing ++ ". Skipping.".

Definition processing_line (p out : Path) : string :=
  "Processing " ++ path_str p ++ " -> " ++ path_str out.

(** ** Cell-typing triples and what discovery guarantees *)

(** An [rdf:type] triple whose object has a local name that ends with
    "Cell". *)
Definition cell_typing (t : Triple) : bool :=
  Term_eqb (snd (fst t)) RDF_type && PyStr.endswith (local_name (snd t)) "Cell".

(** The graph without these triples. *)
Definition without_cell_typing (g : Graph) : Graph :=
  filter (fun t => negb (cell_typing t)) g.

(** The suffixes that make a predicate a role. *)
Definition role_suffixes : list string :=
  [ "onto1"; "onto2"; "map"; "entity1"; "entity2"; "measure"; "relation"; "cid" ].

(** A record of roles, the Cell class left out. *)
Definition erase_cell (r : Discovery.Roles) : Discovery.Roles :=
  let '(Discovery.mkRoles o1 o2 mp e1 e2 ms rl cd al _) := r in
  Discovery.mkRoles o1 o2 mp e1 e2 ms rl cd al None.

Definition dict_of (r : Discovery.Roles) : Discovery.Dict :=
  [ ("onto1", Discovery.onto1_pred r);
    ("onto2", Discovery.onto2_pred r);
    ("map", Discovery.map_pred r);
    ("entity1", Discovery.entity1_pred r);
    ("entity2", Discovery.entity2_pred r);
    ("measure", Discovery.measure_pred r);
    ("relation", Discovery.relation_pred r);
    ("cid", Discovery.cid_pred r);
    ("Alignment", Discovery.alignment_class r);
    ("Cell", Discovery.cell_class r) ].

(** What discovery guarantees about its result: a role predicate has a
    local name with a role suffix, hence is not [rdf:type]; the Alignment
    class has a local name that ends with "Alignment". *)
Definition role_ok (o : option Term) : Prop :=
  forall p, o = Some p -> p <> RDF_type.

Definition class_ok (o : option Term) : Prop :=
  forall c, o = Some c -> PyStr.endswith (local_name c) "Alignment" = true.

Definition roles_ok (r : Discovery.Roles) : Prop :=
  role_ok (Discovery.onto1_pred r) /\ role_ok (Discovery.onto2_pred r)
  /\ role_ok (Discovery.map_pred r) /\ role_ok (Discovery.entity1_pred r)
  /\ role_ok (Discovery.entity2_pred r) /\ role_ok (Discovery.measure_pred r)
  /\ role_ok (Discovery.relation_pred r) /\ role_ok (Discovery.cid_pred r)
  /\ class_ok (Discovery.alignment_class r).

(** ** Sample inputs *)

Module SampleRuns.
Import Sample.

Definition v_of (g : Graph) : Preds :=
  preds_of (Discovery.find_predicates_and_classes g).

Definition set_t : Term := mapping_set_iri_of (mkPath "in" "t.ttl").

Definition st0 : Locals := mkLocals [] [] None None.

(** One cell whose cid is the empty literal. *)
Definition empty_cid : Graph :=
  (header ++ cell cell1 "http://a/x" "http://b/y" "=" "0.95"
   ++ with_cid cell1 "")%list.

(** One cell whose measure is not a number. *)
Definition bad_measure : Graph :=
  (header ++ cell cell1 "http://a/x" "http://b/y" "<" "not-a-number"
   ++ with_cid cell1 "7")%list.

(** Two complete cells that carry the same cid. *)
Definition same_cid : Graph :=
  (header ++ cell cell1 "http://a/x" "http://b/y" "=" "0.95"
   ++ with_cid cell1 "1"
   ++ cell cell2 "http://a/u" "http://b/w" "=" "0.5"
   ++ with_cid cell2 "1")%list.

(** One complete cell, and no resource typed as a Cell. *)
Definition untyped_cell : Graph :=
  filter (fun t => negb (Term_eqb (snd t) (api "Cell"))) one_cell.

End SampleRuns.

Module SampleDir.

(** A directory with a malformed file and a valid one. *)
Definition entries : list (string * option Graph) :=
  [ ("b_valid.ttl", Some Sample.one_cell); ("a_malformed.ttl", None) ].

End SampleDir.

(** ** Definitions used by the further properties *)

(** [k] times the character [c]. *)
Fixpoint repeat_char (c : ascii) (k : nat) : string :=
  match k with
  | O => EmptyString
  | S k' => String c (repeat_char c k')
  end.

(** The last triple of a graph that passes a test. *)
Definition last_with (f : Triple -> bool) (g : Graph) : option Triple :=
  hd_error (rev (filter f g)).

(** The local name of the predicate ends with [suf]. *)
Definition predicate_has_suffix (suf : string) (t : Triple) : bool :=
  PyStr.endswith (local_name (snd (fst t))) suf.

(** An [rdf:type] triple whose object is an IRI with a local name that ends
    with [suf]. *)
Definition types_as (suf : string) (t : Triple) : bool :=
  Term_eqb (snd (fst t)) RDF_type && isURIRef (snd t)
  && PyStr.endswith (local_name (snd t)) suf.

(** The line that reports the file written. *)
Definition ok_line (out : Path) : string := "  [OK] Wrote " ++ path_str out.

(** The predicates of the triples about the mapping set. *)
Definition set_predicates : list Term :=
  [ RDF_type; NS.SSSOM "subject_source"; NS.SSSOM "object_source";
    NS.SSSOM "mappings" ].

(** The predicates of the triples about a mapping. *)
Definition mapping_predicates : list Term :=
  [ RDF_type; NS.SSSOM "record_id"; NS.SSSOM "subject_id";
    NS.SSSOM "predicate_id"; NS.SSSOM "object_id"; NS.SSSOM "confidence";
    NS.SSSOM "mapping_justification" ].

(** The first value with a true truth value, as [if s1 and subj_source is
    None] keeps it. *)
Definition first_truthy (B : Builtins) (l : list (option Term)) : option Term :=
  match find (truthy_opt B) l with
  | Some o => o
  | None => None
  end.

(** An entry of the input directory: a name and the parse of its text. *)
Abbreviation DirEntry := (string * option Graph)%type.

(** The order of [sorted] on the entries. *)
Definition name_le (a b : DirEntry) : Prop := String.leb (fst a) (fst b) = true.

(** What the folder converter writes for its [.rdf] entries. *)
Definition converted (folder : string) (rdf_files : list RdfXml2Turtle.Entry)
  : list (string * OutGraph) :=
  flat_map (fun f =>
              match snd f with
              | inr g => [ (PyPath.join folder (RdfXml2Turtle.with_suffix_ttl (fst f)), g) ]
              | inl _ => []
              end) rdf_files.

(** ** alignement_review.py: the interactive review of SSSOM mappings *)

Module Review.

Inductive Exn : Type :=
| EOFError
| KeyError (key : string)
| ValueError
| ParseError.

Inductive Result (A : Type) : Type :=
| Ok (a : A)
| Err (e : Exn).

Arguments Ok {A} a.
Arguments Err {A} e.

Section Tool.

Variable B : Builtins.

(** The dictionary that [pprint] shows for a mapping. *)
Record Alignment : Type := mkAlignment {
  axiom : Term;
  subject_id : string;
  object_id : string;
  predicate_id : option string;
  confidence : option (PyFloat B);
  curation_rule : option string
}.

(** What reaches the terminal: a printed line, the prompt of an [input], or
    a dictionary shown by [pprint]. *)
Inductive Out : Type :=
| Line (s : string)
| Prompt (s : string)
| Pretty (a : Alignment).

(** The terminal: the lines still to be typed and what was shown. *)
Record Tty : Type := mkTty {
  stdin : list string;
  stdout : list Out
}.

Definition M (A : Type) : Type := Tty -> Result A * Tty.

Definition ret {A : Type} (a : A) : M A := fun t => (Ok a, t).

Definition raise {A : Type} (e : Exn) : M A := fun t => (Err e, t).

Definition bind {A C : Type} (m : M A) (k : A -> M C) : M C :=
  fun t =>
    match m t with
    | (Ok a, t') => k a t'
    | (Err e, t') => (Err e, t')
    end.

Local Notation "x <- m ;; k" := (bind m (fun x => k))
  (at level 61, m at next level, right associativity).
Local Notation "m ;;; k" := (bind m (fun _ => k))
  (at level 61, right associativity).

(** [print(line)] *)
Definition print (line : string) : M unit :=
  fun t => (Ok tt, mkTty (stdin t) (stdout t ++ [Line line])%list).

(** [pprint(alignment)] *)
Definition pprint (a : Alignment) : M unit :=
  fun t => (Ok tt, mkTty (stdin t) (stdout t ++ [Pretty a])%list).

(** [input(prompt)]: shows the prompt and takes the next line; [EOFError]
    when there is none. *)
Definition input (prompt : string) : M string :=
  fun t =>
    let shown := (stdout t ++ [Prompt prompt])%list in
    match stdin t with
    | [] => (Err EOFError, mkTty [] shown)
    | l :: rest => (Ok l, mkTty rest shown)
    end.

(** [get_file_name]: the stem of the path. *)
Definition get_file_name (path : Path) : string := PyPath.stem (name path).

(** The dictionary [decision_text] of [review_alignment], and its lookup;
    [None] for a [KeyError]. *)
Definition decision_text : list (string * string) :=
  [ ("y", "accept"); ("n", "reject"); ("r", "requires_refinement");
    ("", "unspecified") ].

Fixpoint lookup (d : list (string * string)) (k : string) : option string :=
  match d with
  | [] => None
  | (k', v) :: d' => if String.eqb k' k then Some v else lookup d' k
  end.

Definition review_alignment : M (string * string) :=
  decision <- input "Is the above refinement acceptable? Yes(y), No(n), Needs Refinement(r): " ;;
  match lookup decision_text decision with
  | None => raise (KeyError decision)
  | Some text =>
      comment <- input "Provide a justification for your decision: " ;;
      ret (text, comment)
  end.

Definition help_line : string :=
  "Used to identify the person that reviewed and confirmed the mapping. Recommended to be an ORCID or otherwise identifying URI".

(** The [while not set] loop of [set_reviewer_id]: each turn takes one line,
    so the loop is a recursion on the lines to come. *)
Fixpoint set_reviewer_id_loop (lines : list string) (shown : list Out)
  : Result string * Tty :=
  let shown1 :=
    (shown ++ [Prompt "Are you using an ORCID as your id? Y/n (type h for help): "])%list in
  match lines with
  | [] => (Err EOFError, mkTty [] shown1)
  | isOrcid :: rest =>
      if String.eqb isOrcid "h"
      then set_reviewer_id_loop rest (shown1 ++ [Line help_line])%list
      else if existsb (String.eqb isOrcid) [ ""; "Y"; "y" ]
      then (x <- input "Enter your ORCID: " ;; ret ("orcid:" ++ x))
             (mkTty rest shown1)
      else input "Enter your URI (include namespace or prefix): "
             (mkTty rest shown1)
  end.

Definition set_reviewer_id : M string :=
  fun t => set_reviewer_id_loop (stdin t) (stdout t).

Definition set_reviewer_name : M string := input "Enter your name: ".

(** [g.subjects(RDF.type, OWL.Axiom)] *)
Definition axioms_of (g : Graph) : list Term :=
  map (fun t => fst (fst t))
      (triples g None (Some RDF_type) (Some (NS.OWL "Axiom"))).

(** [str(x) if x else None] *)
Definition str_if (x : option Term) : option string :=
  match x with
  | Some t => if truthy B t then Some (str t) else None
  | None => None
  end.

(** [float(conf) if conf else None]; [ValueError] when the text is no
    float. *)
Definition float_if (conf : option Term) : Result (option (PyFloat B)) :=
  match conf with
  | Some c =>
      if truthy B c
      then match py_float B (str c) with
           | Some f => Ok (Some f)
           | None => Err ValueError
           end
      else Ok None
  | None => Ok None
  end.

(** The dictionary built for an axiom that has a subject and an object. *)
Definition alignment_of (g : Graph) (axiom subj obj : Term) : Result Alignment :=
  let pred := value g axiom (Some (NS.SSSOM "predicate_id")) in
  let conf := value g axiom (Some (NS.SSSOM "confidence")) in
  let rule := value g axiom (Some (NS.SSSOM "curation_rule")) in
  match float_if conf with
  | Err e => Err e
  | Ok confidence =>
      Ok (mkAlignment axiom (str subj) (str obj) (str_if pred) confidence
            (str_if rule))
  end.

(** The first loop: the list [alignments]. *)
Fixpoint load_loop (g : Graph) (axioms : list Term) (alignments : list Alignment)
  : Result (list Alignment) :=
  match axioms with
  | [] => Ok alignments
  | axiom :: rest =>
      match value g axiom (Some (NS.SSSOM "subject_id")),
            value g axiom (Some (NS.SSSOM "object_id")) with
      | Some subj, Some obj =>
          match alignment_of g axiom subj obj with
          | Err e => Err e
          | Ok a => load_loop g rest (alignments ++ [a])%list
          end
      | _, _ => load_loop g rest alignments
      end
  end.

(** The four [g.add] of the review. *)
Definition add_review (g : Graph) (axiom : Term) (uid uname decision comment : string)
  : Graph :=
  let g := graph_add g (axiom, NS.SSSOM "reviewer_id", Literal uid None None) in
  let g := graph_add g (axiom, NS.SSSOM "reviewer_label", Literal uname None None) in
  let g := graph_add g (axiom, NS.SSSOM "reviewer_decision", Literal decision None None) in
  graph_add g (axiom, NS.SSSOM "reviewer_justification", Literal comment None None).

Definition rule_line : string :=
  "====================================================================".

(** The second loop, over the axioms of the graph as parsed; [g] is the
    graph as the reviews have extended it, [count] the running number. *)
Fixpoint review_loop (total : nat) (uid uname : string) (axioms : list Term)
         (g : Graph) (count : nat) : M Graph :=
  match axioms with
  | [] => ret g
  | axiom :: rest =>
      let subj := value g axiom (Some (NS.SSSOM "subject_id")) in
      let obj := value g axiom (Some (NS.SSSOM "object_id")) in
      print ("Alignment " ++ PyStr.of_Z (Z.of_nat count) ++ " of "
             ++ PyStr.of_Z (Z.of_nat total)) ;;;
      print "" ;;;
      match subj, obj with
      | Some subj, Some obj =>
          match alignment_of g axiom subj obj with
          | Err e => raise e
          | Ok alignment =>
              pprint alignment ;;;
              dc <- review_alignment ;;
              let g' := add_review g axiom uid uname (fst dc) (snd dc) in
              print "" ;;;
              print rule_line ;;;
              print "" ;;;
              review_loop total uid uname rest g' (S count)
          end
      | _, _ => review_loop total uid uname rest g (S count)
      end
  end.

(** [process_alignments(path, uid, uname)]; [parsed] is what [g.parse(path,
    format="turtle")] makes of the file. *)
Definition process_alignments (parsed : option Graph) (uid uname : string)
  : M Graph :=
  match parsed with
  | None => raise ParseError
  | Some g =>
      match load_loop g (axioms_of g) [] with
      | Err e => raise e
      | Ok alignments =>
          print ("Loaded " ++ PyStr.of_Z (Z.of_nat (List.length alignments))
                 ++ " SSSOM alignments") ;;;
          print "" ;;;
          print "======================BEGINNING REVIEW===========================" ;;;
          print "" ;;;
          g' <- review_loop (List.length alignments) uid uname (axioms_of g) g 1 ;;
          print "======================REVIEW COMPLETE===========================" ;;;
          ret g'
      end
  end.

End Tool.

End Review.

(** The predicates that the loops of the review read. *)
Definition review_queries : list Term :=
  [ NS.SSSOM "subject_id"; NS.SSSOM "object_id"; NS.SSSOM "predicate_id";
    NS.SSSOM "confidence"; NS.SSSOM "curation_rule" ].

(** An axiom that is an SSSOM mapping: it has a subject and an object. *)
Definition reviewable (g : Graph) (axiom : Term) : bool :=
  negb (is_none (value g axiom (Some (NS.SSSOM "subject_id"))))
  && negb (is_none (value g axiom (Some (NS.SSSOM "object_id")))).

(** The four decisions. *)
Definition decisions : list string :=
  [ "accept"; "reject"; "requires_refinement"; "unspecified" ].

(** [k] rounds of the help of [set_reviewer_id]. *)
Fixpoint help_rounds (B : Builtins) (k : nat) : list (Review.Out B) :=
  match k with
  | O => []
  | S k' =>
      Review.Prompt B "Are you using an ORCID as your id? Y/n (type h for help): "
      :: Review.Line B Review.help_line :: help_rounds B k'
  end.

(** The triples that the review of [axiom] may add. *)
Definition review_triple (uid uname : string) (axiom : Term) (tr : Triple) : Prop :=
  tr = (axiom, NS.SSSOM "reviewer_id", Literal uid None None)
  \/ tr = (axiom, NS.SSSOM "reviewer_label", Literal uname None None)
  \/ (exists d, In d decisions
                /\ tr = (axiom, NS.SSSOM "reviewer_decision", Literal d None None))
  \/ (exists c, tr = (axiom, NS.SSSOM "reviewer_justification", Literal c None None)).

(** [axiom] carries a complete review. *)
Definition reviewed (uid uname : string) (g : Graph) (axiom : Term) : Prop :=
  In (axiom, NS.SSSOM "reviewer_id", Literal uid None None) g
  /\ In (axiom, NS.SSSOM "reviewer_label", Literal uname None None) g
  /\ (exists d, In d decisions
                /\ In (axiom, NS.SSSOM "reviewer_decision", Literal d None None) g)
  /\ (exists c, In (axiom, NS.SSSOM "reviewer_justification", Literal c None None) g).

(** The loops read the same values in both graphs. *)
Definition agrees (g0 g : Graph) : Prop :=
  forall a p, In p review_queries -> value g a (Some p) = value g0 a (Some p).

(** A mapping whose confidence has a true truth value and a text that is no
    float. *)
Definition bad_confidence (B : Builtins) (g : Graph) (axiom : Term) : bool :=
  reviewable g axiom
  && match value g axiom (Some (NS.SSSOM "confidence")) with
     | Some c => truthy B c && is_none (py_float B (str c))
     | None => false
     end.

(** ** A sample review *)

Module ReviewSample.

Definition ax1 : Term := BNode "ax1".
Definition ax2 : Term := BNode "ax2".

(** One mapping, and one axiom that is no mapping. *)
Definition mappings : Graph :=
  [ (ax1, RDF_type, NS.OWL "Axiom");
    (ax1, NS.SSSOM "subject_id", URIRef "http://a/x");
    (ax1, NS.SSSOM "object_id", URIRef "http://b/y");
    (ax1, NS.SSSOM "confidence", Literal "0.95" (Some (NS.XSD "double")) None);
    (ax2, RDF_type, NS.OWL "Axiom") ].

(** The same with a confidence that is no number. *)
Definition bad_mappings : Graph :=
  [ (ax1, RDF_type, NS.OWL "Axiom");
    (ax1, NS.SSSOM "subject_id", URIRef "http://a/x");
    (ax1, NS.SSSOM "object_id", URIRef "http://b/y");
    (ax1, NS.SSSOM "confidence", Literal "high" None None) ].

Definition tty (lines : list string) : Review.Tty Sample.builtins :=
  Review.mkTty Sample.builtins lines [].

Definition run (g : Graph) (lines : list string)
  : Review.Result Graph * Review.Tty Sample.builtins :=
  Review.process_alignments Sample.builtins (Some g) "orcid:1" "Ada" (tty lines).

(** The graph that a run returns, the empty graph when it raises. *)
Definition graph_of (r : Review.Result Graph * Review.Tty Sample.builtins) : Graph :=
  match fst r with
  | Review.Ok g => g
  | Review.Err _ => []
  end.

End ReviewSample.

(** * Properties *)

(** ** The string and path operations on examples *)

Example local_name_slash :
  local_name (URIRef "http://knowledgeweb.semanticweb.org/heterogeneity/alignmentonto1")
  = "alignmentonto1".
Proof. reflexivity. Qed.

Example local_name_hash :
  local_name (URIRef "http://a/b#Cell/") = "Cell/".
Proof. reflexivity. Qed.

Example local_name_trailing :
  local_name (URIRef "http://a/b/map///") = "map".
Proof. reflexivity. Qed.

Example stem_ttl : PyPath.stem "conf.cmt-ekaw.ttl" = "conf.cmt-ekaw".
Proof. reflexivity. Qed.

Example stem_hidden : PyPath.stem ".ttl" = ".ttl".
Proof. reflexivity. Qed.

Example of_Z_42 : PyStr.of_Z (Z.abs (-42)) = "42".
Proof. reflexivity. Qed.

Example repr_names_2 : PyStr.repr_names ["onto1"; "map"] = "['onto1', 'map']".
Proof. reflexivity. Qed.

(** ** The output graph as a set *)

Lemma graph_add_In (g : Graph) (u t : Triple) :
  In t (graph_add g u) <-> In t g \/ t = u.
Proof.
  unfold graph_add. destruct (in_dec Triple_eq_dec u g) as [Hin | Hout].
  - split; [now left | intros [H | ->]; assumption].
  - rewrite in_app_iff. simpl. split.
    + intros [H | [H | []]]; [now left | now right].
    + intros [H | ->]; [now left | right; now left].
Qed.

Lemma fold_graph_add_In (l : list Triple) (g : Graph) (t : Triple) :
  In t (fold_left graph_add l g) <-> In t g \/ In t l.
Proof.
  revert g. induction l as [| u l IH]; intros g; simpl.
  - tauto.
  - rewrite IH, graph_add_In. split.
    + intros [[H | ->] | H]; auto.
    + intros [H | [-> | H]]; auto.
Qed.

Lemma graph_add_NoDup (g : Graph) (u : Triple) :
  NoDup g -> NoDup (graph_add g u).
Proof.
  intros Hg. unfold graph_add.
  destruct (in_dec Triple_eq_dec u g) as [Hin | Hout]; [assumption |].
  apply NoDup_app; [assumption | repeat constructor; simpl; tauto |].
  intros x Hx [<- | []]. contradiction.
Qed.

Lemma fold_graph_add_NoDup (l : list Triple) (g : Graph) :
  NoDup g -> NoDup (fold_left graph_add l g).
Proof.
  revert g. induction l as [| u l IH]; intros g Hg; simpl; [assumption |].
  apply IH, graph_add_NoDup, Hg.
Qed.

Lemma fold_graph_add_app (l1 l2 : list Triple) (g : Graph) :
  fold_left graph_add (l1 ++ l2) g
  = fold_left graph_add l2 (fold_left graph_add l1 g).
Proof. apply fold_left_app. Qed.

Lemma Term_eqb_eq (a b : Term) : Term_eqb a b = true <-> a = b.
Proof.
  unfold Term_eqb. destruct (Term_eq_dec a b); split; congruence.
Qed.

Lemma Term_eqb_refl (a : Term) : Term_eqb a a = true.
Proof. now apply Term_eqb_eq. Qed.

(** ** The loops, cell by cell *)

Section LoopFacts.

Variable B : Builtins.
Variable g_in : Graph.
Variable v : Preds.
Variable mapping_set_iri : Term.

Lemma cell_body_eq (st : Locals) (cell : Term) :
  cell_body B g_in v mapping_set_iri st cell
  = mkLocals (fold_left graph_add (adds_of B g_in v mapping_set_iri cell) (g_out st))
             (all_mapping_nodes st ++ node_of B g_in v mapping_set_iri cell)
             (subj_source st) (obj_source st).
Proof.
  unfold cell_body, adds_of, node_of, entities_of.
  destruct (value g_in cell (entity1_pred v)) as [subj |];
    [destruct (value g_in cell (entity2_pred v)) as [obj |] |];
    simpl; try reflexivity; rewrite app_nil_r; now destruct st.
Qed.

Lemma cell_loop (cells : list Term) (st : Locals) :
  let st' := fold_left (cell_body B g_in v mapping_set_iri) cells st in
  g_out st' = fold_left graph_add (flat_map (adds_of B g_in v mapping_set_iri) cells) (g_out st)
  /\ all_mapping_nodes st' = (all_mapping_nodes st ++ flat_map (node_of B g_in v mapping_set_iri) cells)%list
  /\ subj_source st' = subj_source st
  /\ obj_source st' = obj_source st.
Proof.
  revert st. induction cells as [| c cells IH]; intros st; simpl.
  - now rewrite app_nil_r.
  - destruct (IH (cell_body B g_in v mapping_set_iri st c)) as (Hg & Hn & Hs & Ho).
    rewrite Hg, Hn, Hs, Ho, cell_body_eq. simpl.
    now rewrite fold_graph_add_app, app_assoc.
Qed.

Lemma aln_loop (alns : list Term) (st : Locals) :
  let cells := flat_map (fun aln => objects g_in aln (map_pred v)) alns in
  let st' := fold_left (aln_body B g_in v mapping_set_iri) alns st in
  g_out st' = fold_left graph_add (flat_map (adds_of B g_in v mapping_set_iri) cells) (g_out st)
  /\ all_mapping_nodes st' = (all_mapping_nodes st ++ flat_map (node_of B g_in v mapping_set_iri) cells)%list.
Proof.
  revert st. induction alns as [| a alns IH]; intros st; simpl.
  - now rewrite app_nil_r.
  - destruct (IH (aln_body B g_in v mapping_set_iri st a)) as (Hg & Hn).
    rewrite Hg, Hn. unfold aln_body.
    match goal with
    | |- context [fold_left (cell_body _ _ _ _) ?cs ?s0] =>
        destruct (cell_loop cs s0) as (Hg' & Hn' & _)
    end.
    rewrite Hg', Hn'. simpl.
    now rewrite !flat_map_app, fold_graph_add_app, app_assoc.
Qed.

(** The mapping IRIs collected by the loops: one for each visit of a
    complete cell. *)
Lemma after_loops_nodes :
  all_mapping_nodes (after_loops B g_in v mapping_set_iri)
  = flat_map (node_of B g_in v mapping_set_iri) (visited g_in v).
Proof.
  unfold after_loops.
  match goal with
  | |- context [fold_left _ _ ?s0] =>
      destruct (aln_loop (alignments_of g_in v) s0) as (_ & Hn)
  end.
  exact Hn.
Qed.

Lemma after_loops_graph :
  g_out (after_loops B g_in v mapping_set_iri)
  = fold_left graph_add (flat_map (adds_of B g_in v mapping_set_iri) (visited g_in v))
      [ (mapping_set_iri, RDF_type, NS.OWL "Ontology");
        (mapping_set_iri, RDF_type, NS.SSSOM "MappingSet") ].
Proof.
  unfold after_loops.
  match goal with
  | |- context [fold_left _ _ ?s0] =>
      destruct (aln_loop (alignments_of g_in v) s0) as (Hg & _)
  end.
  rewrite Hg. simpl. do 2 f_equal.
  unfold graph_add at 2. simpl. unfold graph_add.
  destruct (in_dec Triple_eq_dec _ _) as [[H | []] | _]; [discriminate H | reflexivity].
Qed.

End LoopFacts.

(** ** What one cell adds *)

Lemma has_predicate_In (p : Term) (l : list Triple) (s o : Term) :
  In (s, p, o) l <-> In (s, p, o) (filter (has_predicate p) l).
Proof.
  rewrite filter_In. unfold has_predicate. simpl.
  rewrite Term_eqb_refl. tauto.
Qed.

Section CellFacts.

Variable B : Builtins.
Variable mapping_set_iri : Term.
Variables (cid_val : option Term) (subj obj : Term) (measure rel : option Term).

Local Abbreviation node :=
  (mapping_node_of B mapping_set_iri (cid_str_of B cid_val) subj obj).
Local Abbreviation adds :=
  (cell_adds B mapping_set_iri cid_val subj obj measure rel).

Ltac split_adds :=
  unfold cell_adds, confidence_adds;
  destruct (PyStr.nonempty (cid_str_of B cid_val));
  destruct measure as [m |]; [destruct (py_float B (str m)) | | destruct (py_float B (str m)) |];
  reflexivity.

Lemma cell_adds_type :
  filter (has_predicate RDF_type) adds = [ (node, RDF_type, NS.SSSOM "Mapping") ].
Proof. split_adds. Qed.

Lemma cell_adds_predicate_id :
  filter (has_predicate (NS.SSSOM "predicate_id")) adds
  = [ (node, NS.SSSOM "predicate_id", pred_uri_of rel) ].
Proof. split_adds. Qed.

Lemma cell_adds_record_id :
  filter (has_predicate (NS.SSSOM "record_id")) adds
  = if PyStr.nonempty (cid_str_of B cid_val)
    then [ (node, NS.SSSOM "record_id", Literal (cid_str_of B cid_val) None None) ]
    else [].
Proof. split_adds. Qed.

Lemma cell_adds_confidence :
  filter (has_predicate (NS.SSSOM "confidence")) adds
  = confidence_adds B node measure.
Proof. split_adds. Qed.

End CellFacts.

(** [cid_str] is the string of the cid value, and empty without one: the
    truth test of [(cid_val and str(cid_val)) or ""] only maps an empty
    string to the empty string. *)
Lemma cid_str_of_str (B : Builtins) (cid_val : option Term) :
  cid_str_of B cid_val = match cid_val with Some t => str t | None => "" end.
Proof.
  destruct cid_val as [[s | s | s d l] |]; simpl; try reflexivity;
    destruct s; reflexivity.
Qed.

(** ** The mapping IRIs of a file *)

Section NodeFacts.

Variable B : Builtins.
Variable g_in : Graph.
Variable v : Preds.
Variable iri : Term.

Lemma node_of_cell (cell : Term) :
  node_of B g_in v iri cell
  = if complete g_in v cell
    then [ URIRef (str iri ++ "#m" ++ iri_suffix B g_in v cell) ]
    else [].
Proof.
  unfold node_of, complete, iri_suffix.
  destruct (entities_of g_in v cell) as [[subj obj] |]; [| reflexivity].
  cbn [is_none negb]. f_equal.
  unfold mapping_node_of. rewrite cid_str_of_str.
  destruct (PyStr.nonempty _); reflexivity.
Qed.

Lemma node_of_suffix (cells : list Term) :
  flat_map (node_of B g_in v iri) cells
  = map (fun cell => URIRef (str iri ++ "#m" ++ iri_suffix B g_in v cell))
        (filter (complete g_in v) cells).
Proof.
  induction cells as [| c cells IH]; [reflexivity |].
  cbn [flat_map filter]. rewrite IH, node_of_cell.
  destruct (complete g_in v c); reflexivity.
Qed.

Lemma nodes_suffix :
  all_mapping_nodes (after_loops B g_in v iri)
  = map (fun cell => URIRef (str iri ++ "#m" ++ iri_suffix B g_in v cell)) (complete_cells g_in v).
Proof. rewrite after_loops_nodes. apply node_of_suffix. Qed.

Lemma fold_links (l : list Term) (g : Graph) :
  fold_left (fun g m => graph_add g (iri, NS.SSSOM "mappings", m)) l g
  = fold_left graph_add (map (fun m => (iri, NS.SSSOM "mappings", m)) l) g.
Proof.
  revert g. induction l as [| m l IH]; intros g; simpl; [reflexivity | apply IH].
Qed.

(** Where a triple of the serialized graph comes from. *)
Lemma final_graph_In (t : Triple) :
  In t (final_graph B g_in v iri)
  <-> In t (g_out (after_loops B g_in v iri))
      \/ subj_source (after_loops B g_in v iri)
         = Some (snd t) /\ fst t = (iri, NS.SSSOM "subject_source")
      \/ obj_source (after_loops B g_in v iri)
         = Some (snd t) /\ fst t = (iri, NS.SSSOM "object_source")
      \/ In (snd t) (all_mapping_nodes (after_loops B g_in v iri))
         /\ fst t = (iri, NS.SSSOM "mappings").
Proof.
  unfold final_graph. rewrite fold_links, fold_graph_add_In, in_map_iff.
  set (st := after_loops B g_in v iri).
  assert (Hlink : (exists m, (iri, NS.SSSOM "mappings", m) = t
                             /\ In m (pyset (all_mapping_nodes st)))
                  <-> In (snd t) (all_mapping_nodes st)
                      /\ fst t = (iri, NS.SSSOM "mappings")).
  { unfold pyset. split.
    - intros (m & <- & Hm). apply nodup_In in Hm. now split.
    - intros (Hm & Hf). exists (snd t). rewrite nodup_In. split; [| assumption].
      destruct t as [ft o]. simpl in *. now subst. }
  rewrite Hlink. clear Hlink.
  assert (Hpair : forall (k : Term * Term) (s : Term),
             t = (k, s) <-> Some s = Some (snd t) /\ fst t = k).
  { intros k s. destruct t as [ft o]. simpl. split.
    - intros [= -> ->]. now split.
    - intros [[= ->] ->]. reflexivity. }
  destruct (subj_source st) as [s1 |], (obj_source st) as [s2 |];
    rewrite ?graph_add_In, ?Hpair; intuition congruence.
Qed.

(** What a visited cell adds is in the serialized graph. *)
Lemma visited_adds_in_final (cell : Term) (t : Triple) :
  In cell (visited g_in v) -> In t (adds_of B g_in v iri cell) ->
  In t (final_graph B g_in v iri).
Proof.
  intros Hc Ht. apply final_graph_In. left.
  rewrite after_loops_graph. apply fold_graph_add_In. right.
  apply in_flat_map. now exists cell.
Qed.

(** The serialized graph holds no triple twice. *)
Lemma final_graph_NoDup : NoDup (final_graph B g_in v iri).
Proof.
  unfold final_graph. rewrite fold_links. apply fold_graph_add_NoDup.
  assert (H : NoDup (g_out (after_loops B g_in v iri))).
  { rewrite after_loops_graph. apply fold_graph_add_NoDup.
    repeat constructor; simpl; [intros [H | []]; discriminate H | tauto]. }
  destruct (subj_source _), (obj_source _); repeat apply graph_add_NoDup; exact H.
Qed.

End NodeFacts.

(** ** C5: relation to predicate *)

(** C5. For every complete cell, the body adds exactly one
    [sssom:predicate_id] triple for the mapping IRI, which the serialized
    graph holds when the loops visit the cell; its object is
    [skos:exactMatch] if and only if the relation value is a literal whose
    string is ["="], and [skos:relatedMatch] for every other relation value
    (absent, not a literal, or another string). *)
Theorem relation_reduces_to_predicate
  (B : Builtins) (g_in : Graph) (v : Preds) (iri : Term) (st : Locals)
  (cell subj obj : Term) :
  value g_in cell (entity1_pred v) = Some subj ->
  value g_in cell (entity2_pred v) = Some obj ->
  let rel := value g_in cell (relation_pred v) in
  let node := mapping_node_of B iri (cid_str_of B (cid_val_of g_in v cell)) subj obj in
  let st' := cell_body B g_in v iri st cell in
  In (node, NS.SSSOM "predicate_id", pred_uri_of rel) (g_out st')
  /\ (forall s o, In (s, NS.SSSOM "predicate_id", o) (g_out st') ->
        In (s, NS.SSSOM "predicate_id", o) (g_out st)
        \/ (s = node /\ o = pred_uri_of rel))
  /\ (pred_uri_of rel = NS.SKOS "exactMatch"
      <-> exists d l, rel = Some (Literal "=" d l))
  /\ (pred_uri_of rel = NS.SKOS "exactMatch"
      \/ pred_uri_of rel = NS.SKOS "relatedMatch")
  /\ (In cell (visited g_in v) ->
      In (node, NS.SSSOM "predicate_id", pred_uri_of rel) (final_graph B g_in v iri)).
Proof.
  intros H1 H2 rel node st'.
  assert (Hst : g_out st'
                = fold_left graph_add
                    (cell_adds B iri (cid_val_of g_in v cell) subj obj
                       (value g_in cell (measure_pred v)) rel) (g_out st)).
  { unfold st'. rewrite cell_body_eq. unfold adds_of, entities_of.
    rewrite H1, H2. reflexivity. }
  assert (Hadd : In (node, NS.SSSOM "predicate_id", pred_uri_of rel)
                    (cell_adds B iri (cid_val_of g_in v cell) subj obj
                       (value g_in cell (measure_pred v)) rel)).
  { apply has_predicate_In. rewrite cell_adds_predicate_id. now left. }
  rewrite Hst. split; [| split; [| split; [| split]]].
  - apply fold_graph_add_In. now right.
  - intros s o Hin. apply fold_graph_add_In in Hin. destruct Hin as [Hin | Hin].
    + now left.
    + right. apply has_predicate_In in Hin. rewrite cell_adds_predicate_id in Hin.
      destruct Hin as [Heq | []]. inversion Heq. split; reflexivity.
  - split.
    + unfold pred_uri_of.
      destruct rel as [[s | s | s d l] |]; simpl; try discriminate.
      destruct (String.eqb_spec s "=") as [-> | Hne]; [| discriminate].
      intros _. now exists d, l.
    + intros (d & l & ->). reflexivity.
  - unfold pred_uri_of. destruct rel as [r |]; [| now right].
    destruct (isLiteral r && String.eqb (str r) "="); [now left | now right].
  - intros Hc. apply (visited_adds_in_final B g_in v iri cell); [exact Hc |].
    unfold adds_of, entities_of. rewrite H1, H2. exact Hadd.
Qed.

Lemma relation_reduces_to_predicate_witness :
  In (URIRef "http://example.org/mappings/t#m1", NS.SSSOM "predicate_id",
      NS.SKOS "exactMatch")
     (g_out (cell_body Sample.builtins Sample.one_cell
               (SampleRuns.v_of Sample.one_cell) SampleRuns.set_t
               SampleRuns.st0 Sample.cell1)).
Proof.
  exact (proj1 (relation_reduces_to_predicate Sample.builtins Sample.one_cell
                  (SampleRuns.v_of Sample.one_cell) SampleRuns.set_t
                  SampleRuns.st0 Sample.cell1
                  (URIRef "http://a/x") (URIRef "http://b/y")
                  eq_refl eq_refl)).
Defined.

(** ** The outcome and the console of one conversion *)

(** A file that parses never raises, and prints one line after the
    "Processing" line: a warning or the "[OK]" line. *)
Lemma convert_parsed_outcome (B : Builtins) (p out : Path) (g : Graph) (w : World) :
  let r := convert_alignment_file B (mkInFile p (Some g)) out w in
  fst r = Returned
  /\ exists line,
       console (snd r)
       = (console w
          ++ [ ("Processing " ++ path_str p ++ " -> " ++ path_str out)%string;
               line ])%list.
Proof.
  unfold convert_alignment_file. simpl.
  destruct (missing_of _) as [| k ks]; [destruct (alignments_of _ _) as [| a al] |];
    simpl; (split; [reflexivity |]); eexists; rewrite <- app_assoc; reflexivity.
Qed.

(** Neither depends on the built-ins: not on what [float] makes of a
    measure, nor on the hash. *)
Lemma convert_console_builtins (B B' : Builtins) (f : InFile) (out : Path) (w : World) :
  fst (convert_alignment_file B' f out w) = fst (convert_alignment_file B f out w)
  /\ console (snd (convert_alignment_file B' f out w))
     = console (snd (convert_alignment_file B f out w)).
Proof.
  unfold convert_alignment_file. destruct (parsed f) as [g |]; [| now split].
  destruct (missing_of _) as [| k ks]; [destruct (alignments_of _ _) as [| a al] |];
    now split.
Qed.

(** ** C8: measure to confidence *)

(** C8. For every complete cell with a measure, when the string of the
    measure parses as a float the body adds the [sssom:confidence] triple of
    the mapping IRI with that value as an [xsd:double] literal, and no other
    confidence triple, and the serialized graph holds it when the loops visit
    the cell; when it does not parse the body adds no confidence
    triple. In both cases the conversion of the file returns without raising
    and prints the same lines whatever [float] does. *)
Theorem measure_to_confidence
  (B : Builtins) (p out : Path) (g_in : Graph) (w : World) (st : Locals)
  (cell subj obj m : Term) :
  let v := preds_of (Discovery.find_predicates_and_classes g_in) in
  let iri := mapping_set_iri_of p in
  value g_in cell (entity1_pred v) = Some subj ->
  value g_in cell (entity2_pred v) = Some obj ->
  value g_in cell (measure_pred v) = Some m ->
  let node := mapping_node_of B iri (cid_str_of B (cid_val_of g_in v cell)) subj obj in
  let st' := cell_body B g_in v iri st cell in
  match py_float B (str m) with
  | Some conf_val =>
      let lit := Literal (float_lexical B conf_val) (Some (NS.XSD "double")) None in
      In (node, NS.SSSOM "confidence", lit) (g_out st')
      /\ (forall s o, In (s, NS.SSSOM "confidence", o) (g_out st') ->
            In (s, NS.SSSOM "confidence", o) (g_out st) \/ (s = node /\ o = lit))
      /\ (In cell (visited g_in v) ->
          In (node, NS.SSSOM "confidence", lit) (final_graph B g_in v iri))
  | None =>
      forall s o, In (s, NS.SSSOM "confidence", o) (g_out st') ->
        In (s, NS.SSSOM "confidence", o) (g_out st)
  end
  /\ fst (convert_alignment_file B (mkInFile p (Some g_in)) out w) = Returned
  /\ forall B' : Builtins,
       console (snd (convert_alignment_file B' (mkInFile p (Some g_in)) out w))
       = console (snd (convert_alignment_file B (mkInFile p (Some g_in)) out w)).
Proof.
  intros v iri H1 H2 H3 node st'.
  assert (Hst : g_out st'
                = fold_left graph_add
                    (cell_adds B iri (cid_val_of g_in v cell) subj obj (Some m)
                       (value g_in cell (relation_pred v))) (g_out st)).
  { unfold st'. rewrite cell_body_eq. unfold adds_of, entities_of.
    rewrite H1, H2, H3. reflexivity. }
  split; [| split].
  - rewrite Hst.
    assert (Hconf := cell_adds_confidence B iri (cid_val_of g_in v cell) subj obj
                       (Some m) (value g_in cell (relation_pred v))).
    fold node in Hconf. unfold confidence_adds in Hconf.
    destruct (py_float B (str m)) as [conf_val |].
    + split; [| split].
      * apply fold_graph_add_In. right. apply has_predicate_In.
        rewrite Hconf. now left.
      * intros s o Hin. apply fold_graph_add_In in Hin.
        destruct Hin as [Hin | Hin]; [now left | right].
        apply has_predicate_In in Hin. rewrite Hconf in Hin.
        destruct Hin as [Heq | []]. inversion Heq. split; reflexivity.
      * intros Hc. apply (visited_adds_in_final B g_in v iri cell); [exact Hc |].
        unfold adds_of, entities_of. rewrite H1, H2, H3.
        apply has_predicate_In. rewrite Hconf. now left.
    + intros s o Hin. apply fold_graph_add_In in Hin.
      destruct Hin as [Hin | Hin]; [assumption |].
      apply has_predicate_In in Hin. rewrite Hconf in Hin. destruct Hin.
  - apply (convert_parsed_outcome B p out g_in w).
  - intros B'. apply convert_console_builtins.
Qed.

Lemma measure_to_confidence_witness :
  In (URIRef "http://example.org/mappings/t#m1", NS.SSSOM "confidence",
      Literal "0.95" (Some (NS.XSD "double")) None)
     (g_out (cell_body Sample.builtins Sample.one_cell
               (SampleRuns.v_of Sample.one_cell) SampleRuns.set_t
               SampleRuns.st0 Sample.cell1)).
Proof.
  pose proof (measure_to_confidence Sample.builtins (mkPath "in" "t.ttl")
                (mkPath "out" "t_sssom.ttl") Sample.one_cell Sample.w0
                SampleRuns.st0 Sample.cell1
                (URIRef "http://a/x") (URIRef "http://b/y") (Sample.plain "0.95")
                eq_refl eq_refl eq_refl) as H.
  cbv zeta in H. destruct H as [H _].
  change (py_float Sample.builtins (str (Sample.plain "0.95")))
    with (Some "0.95") in H.
  exact (proj1 H).
Defined.

(** ** C9: an empty cid *)

(** C9. For every complete cell whose cid value has the empty string, the
    body takes the path of a cell without cid: the mapping IRI is the one
    made from [abs(hash((subj, obj)))], and no [sssom:record_id] triple is
    added. *)
Theorem empty_cid_falls_back_to_hash
  (B : Builtins) (g_in : Graph) (v : Preds) (iri : Term) (st : Locals)
  (cell subj obj cid : Term) :
  value g_in cell (entity1_pred v) = Some subj ->
  value g_in cell (entity2_pred v) = Some obj ->
  cid_val_of g_in v cell = Some cid ->
  str cid = "" ->
  let st' := cell_body B g_in v iri st cell in
  all_mapping_nodes st'
  = (all_mapping_nodes st
     ++ [ URIRef (str iri ++ "#m" ++ PyStr.of_Z (Z.abs (py_hash B subj obj))) ])%list
  /\ forall s o, In (s, NS.SSSOM "record_id", o) (g_out st') ->
       In (s, NS.SSSOM "record_id", o) (g_out st).
Proof.
  intros H1 H2 Hcid Hempty st'. unfold st'. rewrite cell_body_eq.
  unfold node_of, adds_of, entities_of. rewrite H1, H2.
  cbn [g_out all_mapping_nodes].
  assert (Hstr : cid_str_of B (cid_val_of g_in v cell) = "").
  { rewrite cid_str_of_str, Hcid. exact Hempty. }
  split.
  - unfold mapping_node_of. rewrite Hstr. reflexivity.
  - intros s o Hin. apply fold_graph_add_In in Hin.
    destruct Hin as [Hin | Hin]; [assumption |].
    apply has_predicate_In in Hin. rewrite cell_adds_record_id, Hstr in Hin.
    destruct Hin.
Qed.

Lemma empty_cid_falls_back_to_hash_witness :
  all_mapping_nodes
    (cell_body Sample.builtins SampleRuns.empty_cid
       (SampleRuns.v_of SampleRuns.empty_cid) SampleRuns.set_t
       SampleRuns.st0 Sample.cell1)
  = [ URIRef "http://example.org/mappings/t#m30" ].
Proof.
  exact (proj1 (empty_cid_falls_back_to_hash Sample.builtins SampleRuns.empty_cid
                  (SampleRuns.v_of SampleRuns.empty_cid) SampleRuns.set_t
                  SampleRuns.st0 Sample.cell1
                  (URIRef "http://a/x") (URIRef "http://b/y") (Sample.plain "")
                  eq_refl eq_refl eq_refl eq_refl)).
Defined.

(** ** C6: the mapping IRI *)

(** C6, as the script has it. For every complete cell, the mapping IRI is
    [<mapping-set-iri>#m<cid>] when a cid value is present and its string is
    not empty, and [<mapping-set-iri>#m<abs(hash((subj, obj)))>] otherwise
    (no cid value, or one whose string is empty); the mapping set IRI is
    [http://example.org/mappings/<input-file-stem>]. *)
Theorem mapping_iri_scheme
  (B : Builtins) (g_in : Graph) (v : Preds) (p : Path) (st : Locals)
  (cell subj obj : Term) :
  value g_in cell (entity1_pred v) = Some subj ->
  value g_in cell (entity2_pred v) = Some obj ->
  let iri := mapping_set_iri_of p in
  let fallback := PyStr.of_Z (Z.abs (py_hash B subj obj)) in
  let suffix :=
    match cid_val_of g_in v cell with
    | Some cid => if PyStr.nonempty (str cid) then str cid else fallback
    | None => fallback
    end in
  iri = URIRef ("http://example.org/mappings/" ++ PyPath.stem (name p))
  /\ all_mapping_nodes (cell_body B g_in v iri st cell)
     = (all_mapping_nodes st ++ [ URIRef (str iri ++ "#m" ++ suffix) ])%list.
Proof.
  intros H1 H2 iri fallback suffix. split; [reflexivity |].
  rewrite cell_body_eq. unfold node_of, entities_of. rewrite H1, H2.
  cbn [all_mapping_nodes]. do 2 f_equal.
  unfold mapping_node_of, suffix. rewrite cid_str_of_str.
  destruct (cid_val_of g_in v cell) as [cid |]; [| reflexivity].
  destruct (PyStr.nonempty (str cid)); reflexivity.
Qed.

Lemma mapping_iri_scheme_witness :
  all_mapping_nodes
    (cell_body Sample.builtins Sample.one_cell (SampleRuns.v_of Sample.one_cell)
       (mapping_set_iri_of (mkPath "in" "t.ttl")) SampleRuns.st0 Sample.cell1)
  = [ URIRef "http://example.org/mappings/t#m1" ].
Proof.
  exact (proj2 (mapping_iri_scheme Sample.builtins Sample.one_cell
                  (SampleRuns.v_of Sample.one_cell) (mkPath "in" "t.ttl")
                  SampleRuns.st0 Sample.cell1
                  (URIRef "http://a/x") (URIRef "http://b/y")
                  eq_refl eq_refl)).
Defined.

(** A cell whose cid value is present, as the empty literal, does not get
    [<mapping-set-iri>#m<cid>]: it gets the IRI made from the hash. *)
Lemma mapping_iri_present_cid_counterexample :
  let v := SampleRuns.v_of SampleRuns.empty_cid in
  let node := URIRef "http://example.org/mappings/t#m30" in
  value SampleRuns.empty_cid Sample.cell1 (entity1_pred v) = Some (URIRef "http://a/x")
  /\ value SampleRuns.empty_cid Sample.cell1 (entity2_pred v) = Some (URIRef "http://b/y")
  /\ cid_val_of SampleRuns.empty_cid v Sample.cell1 = Some (Sample.plain "")
  /\ all_mapping_nodes
       (cell_body Sample.builtins SampleRuns.empty_cid v SampleRuns.set_t
          SampleRuns.st0 Sample.cell1) = [ node ]
  /\ node <> URIRef (str SampleRuns.set_t ++ "#m" ++ str (Sample.plain "")).
Proof.
  repeat split; try reflexivity. discriminate.
Qed.

Lemma append_inj_l (p a b : string) : p ++ a = p ++ b -> a = b.
Proof.
  induction p as [| c p IH]; simpl; intros H; [assumption |].
  injection H as H. now apply IH.
Qed.

Lemma nonempty_true (s : string) : s <> "" -> PyStr.nonempty s = true.
Proof. destruct s; [congruence | reflexivity]. Qed.

(** ** C7: distinct mapping IRIs *)

(** C7, as the script has it. The mapping IRIs of a file are
    [<mapping-set-iri>#m<suffix>], one for each visit of a complete cell,
    where the suffix is the cid string whenever that string is not empty and
    the decimal of [abs(hash((subj, obj)))] only otherwise. They are pairwise
    distinct exactly when these suffixes are pairwise distinct; nothing in
    the script makes them so. The IRIs linked by [sssom:mappings] are the
    distinct ones among them. *)
Theorem mapping_iris_distinct_iff_suffixes
  (B : Builtins) (g_in : Graph) (v : Preds) (iri : Term) :
  let cells := complete_cells g_in v in
  let nodes := all_mapping_nodes (after_loops B g_in v iri) in
  nodes = map (fun cell => URIRef (str iri ++ "#m" ++ iri_suffix B g_in v cell)) cells
  /\ (NoDup nodes <-> NoDup (map (iri_suffix B g_in v) cells))
  /\ (forall cell cid,
        In cell cells -> cid_val_of g_in v cell = Some cid -> str cid <> "" ->
        iri_suffix B g_in v cell = str cid)
  /\ NoDup (pyset nodes)
  /\ (forall m, In m (pyset nodes) <-> In m nodes).
Proof.
  intros cells nodes.
  assert (Hnodes : nodes
                   = map (fun s => URIRef (str iri ++ "#m" ++ s))
                         (map (iri_suffix B g_in v) cells)).
  { unfold nodes. rewrite nodes_suffix, map_map. reflexivity. }
  split; [| split; [| split; [| split]]].
  - apply nodes_suffix.
  - rewrite Hnodes. split.
    + apply NoDup_map_inv.
    + apply Injective_map_NoDup. intros a b [= H].
      apply append_inj_l in H. now apply (append_inj_l "#m").
  - intros cell cid Hin Hcid Hne. apply filter_In in Hin. destruct Hin as [_ Hc].
    unfold complete in Hc. unfold iri_suffix. rewrite Hcid.
    destruct (entities_of g_in v cell) as [[subj obj] |]; [| discriminate].
    now rewrite nonempty_true.
  - apply NoDup_nodup.
  - intros m. apply nodup_In.
Qed.

(** Two complete cells with the same cid get the same mapping IRI. *)
Lemma mapping_iris_same_cid_counterexample :
  let v := SampleRuns.v_of SampleRuns.same_cid in
  let nodes :=
    all_mapping_nodes
      (after_loops Sample.builtins SampleRuns.same_cid v SampleRuns.set_t) in
  complete_cells SampleRuns.same_cid v = [ Sample.cell1; Sample.cell2 ]
  /\ nodes = [ URIRef "http://example.org/mappings/t#m1";
               URIRef "http://example.org/mappings/t#m1" ]
  /\ ~ NoDup nodes.
Proof.
  cbv zeta. split; [reflexivity |]. split; [reflexivity |].
  change (all_mapping_nodes _)
    with [ URIRef "http://example.org/mappings/t#m1";
           URIRef "http://example.org/mappings/t#m1" ].
  intros H. inversion H as [| x l Hnotin _]. apply Hnotin. now left.
Qed.

(** ** C4: the number of mappings *)

Lemma resources_typed_In (g : Graph) (cls s : Term) :
  In s (resources_typed g cls) <-> In (s, RDF_type, cls) g.
Proof.
  unfold resources_typed, pyset, triples. rewrite nodup_In, in_map_iff. split.
  - intros ([[s' p] o] & <- & Hin). apply filter_In in Hin. simpl in Hin.
    destruct Hin as [Hin Hm]. apply andb_prop in Hm. destruct Hm as [Hp Ho].
    apply Term_eqb_eq in Hp, Ho. now subst.
  - intros Hin. exists (s, RDF_type, cls). split; [reflexivity |].
    apply filter_In. split; [assumption |]. simpl. now rewrite !Term_eqb_refl.
Qed.

Lemma same_elements_length (l1 l2 : list Term) :
  (forall x, In x l1 <-> In x l2) ->
  List.length (nodup Term_eq_dec l1) = List.length (nodup Term_eq_dec l2).
Proof.
  intros H. apply Nat.le_antisymm; apply NoDup_incl_length;
    try apply NoDup_nodup; intros x Hx; apply nodup_In; apply nodup_In in Hx;
    now apply H.
Qed.

Lemma nodup_length_le (l : list Term) :
  List.length (nodup Term_eq_dec l) <= List.length l.
Proof.
  apply NoDup_incl_length; [apply NoDup_nodup |].
  intros x Hx. now apply nodup_In in Hx.
Qed.

(** The resources typed [sssom:Mapping] in the serialized graph are the
    mapping IRIs that the loops collected. *)
Lemma mapping_typed_iff_node
  (B : Builtins) (g_in : Graph) (v : Preds) (iri s : Term) :
  In (s, RDF_type, NS.SSSOM "Mapping") (final_graph B g_in v iri)
  <-> In s (all_mapping_nodes (after_loops B g_in v iri)).
Proof.
  rewrite final_graph_In, after_loops_graph, after_loops_nodes, fold_graph_add_In.
  cbn [fst snd]. rewrite !in_flat_map. split.
  - intros [[[H | [H | []]] | (cell & Hc & Hin)] | [[_ H] | [[_ H] | [_ H]]]];
      try discriminate H.
    exists cell. split; [assumption |].
    unfold adds_of, node_of in *.
    destruct (entities_of g_in v cell) as [[subj obj] |]; [| destruct Hin].
    apply has_predicate_In in Hin. rewrite cell_adds_type in Hin.
    destruct Hin as [[= <-] | []]. now left.
  - intros (cell & Hc & Hin). left. right. exists cell. split; [assumption |].
    unfold adds_of, node_of in *.
    destruct (entities_of g_in v cell) as [[subj obj] |]; [| destruct Hin].
    destruct Hin as [<- | []].
    apply has_predicate_In. rewrite cell_adds_type. now left.
Qed.

(** C4, as the script has it. With N the number of visits of a complete
    cell (a cell with both entities, reached from an Alignment by the map
    predicate), the loops compute N mapping IRIs; the resources typed
    [sssom:Mapping] in the output graph are exactly these IRIs, so there are
    as many as there are distinct IRIs among them, at most N; each is linked
    from the mapping set IRI by [sssom:mappings]; a cell that lacks entity1
    or entity2 leaves the locals of the loop as they were. *)
Theorem mapping_count_is_distinct_iris
  (B : Builtins) (g_in : Graph) (v : Preds) (iri : Term) :
  let cells := complete_cells g_in v in
  let nodes := all_mapping_nodes (after_loops B g_in v iri) in
  let g := final_graph B g_in v iri in
  List.length nodes = List.length cells
  /\ (forall s, In (s, RDF_type, NS.SSSOM "Mapping") g <-> In s nodes)
  /\ List.length (resources_typed g (NS.SSSOM "Mapping")) = List.length (pyset nodes)
  /\ List.length (resources_typed g (NS.SSSOM "Mapping")) <= List.length cells
  /\ (forall s, In s nodes -> In (iri, NS.SSSOM "mappings", s) g)
  /\ (forall st cell, complete g_in v cell = false ->
        cell_body B g_in v iri st cell = st).
Proof.
  intros cells nodes g.
  assert (Hlen : List.length nodes = List.length cells).
  { unfold nodes. rewrite nodes_suffix. apply List.length_map. }
  assert (Hcount : List.length (resources_typed g (NS.SSSOM "Mapping"))
                   = List.length (pyset nodes)).
  { unfold resources_typed, pyset. apply same_elements_length. intros s.
    rewrite <- (nodup_In Term_eq_dec).
    apply (iff_trans (resources_typed_In g (NS.SSSOM "Mapping") s)).
    apply mapping_typed_iff_node. }
  split; [exact Hlen |]. split; [intros s; apply mapping_typed_iff_node |].
  split; [exact Hcount |]. split; [| split].
  - rewrite Hcount, <- Hlen. apply nodup_length_le.
  - intros s Hs. apply final_graph_In. right. right. right. now split.
  - intros st cell Hc. unfold complete in Hc. unfold cell_body.
    unfold entities_of in Hc.
    destruct (value g_in cell (entity1_pred v)); [| reflexivity].
    destruct (value g_in cell (entity2_pred v)); [discriminate | reflexivity].
Qed.

(** A file with two complete cells that carry the same cid: the output
    graph has one resource typed [sssom:Mapping]. *)
Lemma mapping_count_same_cid_counterexample :
  let v := SampleRuns.v_of SampleRuns.same_cid in
  let g := final_graph Sample.builtins SampleRuns.same_cid v SampleRuns.set_t in
  complete_cells SampleRuns.same_cid v = [ Sample.cell1; Sample.cell2 ]
  /\ Sample.run "t" (Some SampleRuns.same_cid)
     = (Returned,
        mkWorld [ "Processing in/t.ttl -> out/t_sssom.ttl";
                  "  [OK] Wrote out/t_sssom.ttl" ]
                [ ("out/t_sssom.ttl", mkOutGraph out_namespaces g) ])
  /\ resources_typed g (NS.SSSOM "Mapping")
     = [ URIRef "http://example.org/mappings/t#m1" ].
Proof.
  cbv zeta. repeat split; vm_compute; reflexivity.
Qed.

(** ** C2 and C3: the required roles *)

Lemma missing_of_In (preds : Discovery.Dict) (k : string) :
  In k (missing_of preds)
  <-> In k required_keys /\ Discovery.dict_get preds k = None.
Proof.
  unfold missing_of. rewrite filter_In.
  destruct (Discovery.dict_get preds k); simpl; intuition congruence.
Qed.

Lemma missing_of_existsb (preds : Discovery.Dict) :
  existsb (fun k => is_none (Discovery.dict_get preds k)) required_keys
  = negb (is_none (hd_error (missing_of preds))).
Proof.
  unfold missing_of. induction required_keys as [| k ks IH]; [reflexivity |].
  simpl. destruct (is_none (Discovery.dict_get preds k)); [reflexivity | exact IH].
Qed.

(** C2, as the script has it. The required roles are the eight of
    [required_keys]: onto1, onto2, map, entity1, entity2, measure, relation
    and the Alignment class. When one of them is unresolved the file is
    skipped: the call returns after the warning and writes nothing. When all
    eight are resolved the file is converted (or skipped for having no
    Alignment instance) whether or not cid and the Cell class are resolved. *)
Theorem required_roles_decide_skip
  (B : Builtins) (p out : Path) (g : Graph) (w : World) :
  let preds := Discovery.find_predicates_and_classes g in
  let r := convert_alignment_file B (mkInFile p (Some g)) out w in
  if existsb (fun k => is_none (Discovery.dict_get preds k))
       [ "onto1"; "onto2"; "map"; "entity1"; "entity2"; "measure"; "relation";
         "Alignment" ]
  then r = (Returned,
            print (missing_warning p (missing_of preds))
                  (print (processing_line p out) w))
       /\ written (snd r) = written w
  else match alignments_of g (preds_of preds) with
       | [] => fst r = Returned /\ written (snd r) = written w
       | _ :: _ =>
           fst r = Returned
           /\ written (snd r)
              = (written w
                 ++ [ (path_str out,
                       mkOutGraph out_namespaces
                         (final_graph B g (preds_of preds) (mapping_set_iri_of p))) ])%list
       end.
Proof.
  intros preds r.
  change (existsb _ _)
    with (existsb (fun k => is_none (Discovery.dict_get preds k)) required_keys).
  rewrite missing_of_existsb. unfold r, convert_alignment_file. cbn [parsed in_path].
  fold preds. destruct (missing_of preds) as [| k ks]; cbn [hd_error is_none negb].
  - destruct (alignments_of g (preds_of preds)); split; reflexivity.
  - split; reflexivity.
Qed.

(** A file in which no resource is typed as a Cell, so that the Cell class
    is unresolved, is converted. *)
Lemma cell_class_unresolved_counterexample :
  let g := SampleRuns.untyped_cell in
  Discovery.dict_get (Discovery.find_predicates_and_classes g) "Cell" = None
  /\ Sample.run "t" (Some g)
     = (Returned,
        mkWorld [ "Processing in/t.ttl -> out/t_sssom.ttl";
                  "  [OK] Wrote out/t_sssom.ttl" ]
                [ ("out/t_sssom.ttl",
                   mkOutGraph out_namespaces
                     (final_graph Sample.builtins g (SampleRuns.v_of g)
                        SampleRuns.set_t)) ])
  /\ resources_typed
       (final_graph Sample.builtins g (SampleRuns.v_of g) SampleRuns.set_t)
       (NS.SSSOM "Mapping")
     = [ URIRef "http://example.org/mappings/t#m1" ].
Proof.
  cbv zeta. repeat split; vm_compute; reflexivity.
Qed.

(** C3. When one of the eight required roles is missing after discovery,
    the call prints the warning that carries the list of the missing roles
    (the required keys whose role is unresolved, and only those), writes no
    file, and returns without raising. *)
Theorem missing_role_warns_and_skips
  (B : Builtins) (p out : Path) (g : Graph) (w : World) (k : string) :
  let preds := Discovery.find_predicates_and_classes g in
  In k required_keys ->
  Discovery.dict_get preds k = None ->
  convert_alignment_file B (mkInFile p (Some g)) out w
  = (Returned,
     mkWorld (console w
              ++ [ processing_line p out;
                   missing_warning p (missing_of preds) ])%list
             (written w))
  /\ (forall k', In k' (missing_of preds)
                 <-> In k' required_keys /\ Discovery.dict_get preds k' = None)
  /\ List.length required_keys = 8
  /\ ~ In "cid" required_keys.
Proof.
  intros preds Hk Hnone.
  assert (Hin : In k (missing_of preds)) by (apply missing_of_In; now split).
  split; [| split; [apply missing_of_In | split; [reflexivity |]]].
  - unfold convert_alignment_file. cbn [parsed in_path]. fold preds.
    destruct (missing_of preds) as [| k0 ks]; [destruct Hin |].
    unfold print. cbn [console written]. rewrite <- app_assoc. reflexivity.
  - simpl. intuition discriminate.
Qed.

Lemma missing_role_warns_and_skips_witness :
  Sample.run "t" (Some Sample.header)
  = (Returned,
     mkWorld [ "Processing in/t.ttl -> out/t_sssom.ttl";
               "  [WARN] Missing expected elements in t.ttl: ['map', 'entity1', 'entity2', 'measure', 'relation']. Skipping." ]
             []).
Proof.
  exact (proj1 (missing_role_warns_and_skips Sample.builtins
                  (mkPath "in" "t.ttl") (mkPath "out" "t_sssom.ttl")
                  Sample.header Sample.w0 "map"
                  (or_intror (or_intror (or_introl eq_refl))) eq_refl)).
Defined.

(** ** C1: the batch driver and a malformed file *)

(** X18. The loop of [main] goes on after a file that parses, and ends with
    the parse error at the first file that does not: the files before it
    are processed, the files after it are not looked at. *)
Lemma for_each_ttl_stops_at_parse_error
  (B : Builtins) (input_dir out_dir : string)
  (before after : list (string * option Graph)) (bad : string) (w : World) :
  Forall (fun e => snd e <> None) before ->
  for_each_ttl B input_dir out_dir (before ++ (bad, None) :: after)%list w
  = (Raised ParseError,
     print (processing_line (mkPath input_dir bad)
              (mkPath out_dir (PyPath.stem bad ++ "_sssom.ttl")))
           (snd (for_each_ttl B input_dir out_dir before w))).
Proof.
  intros Hall. revert w. induction Hall as [| [n c] before Hc _ IH]; intros w.
  - reflexivity.
  - simpl in Hc. destruct c as [g |]; [| congruence].
    cbn [app for_each_ttl].
    pose proof (convert_parsed_outcome B (mkPath input_dir n)
                  (mkPath out_dir (PyPath.stem n ++ "_sssom.ttl")) g w) as [Hr _].
    destruct (convert_alignment_file B _ _ w) as [[| e] w']; [apply IH | discriminate Hr].
Qed.

(** The driver of the RDF/XML converter, in the same repository, catches
    the exception of each file: its run always returns, and every [.rdf]
    entry gets its console line. *)
Lemma convert_folder_goes_on (folder : string)
      (entries : list RdfXml2Turtle.Entry) (w : World) :
  let rdf_files := filter (fun e => PyStr.endswith (fst e) ".rdf") entries in
  let r := RdfXml2Turtle.convert_folder folder entries w in
  fst r = Returned
  /\ (rdf_files <> [] ->
      List.length (console (snd r))
      = List.length (console w) + List.length rdf_files).
Proof.
  intros rdf_files r. unfold r, RdfXml2Turtle.convert_folder.
  fold rdf_files. clearbody rdf_files. clear r.
  split; [destruct rdf_files; reflexivity |]. intros Hne.
  assert (Hfold : forall fs w0,
             List.length (console (fold_left
                (fun w1 f => RdfXml2Turtle.convert_one folder f w1) fs w0))
             = List.length (console w0) + List.length fs).
  { induction fs as [| f fs IH]; intros w0; simpl; [lia |].
    rewrite IH. unfold RdfXml2Turtle.convert_one.
    destruct (snd f); simpl; rewrite length_app; simpl; lia. }
  destruct rdf_files as [| f fs]; [congruence |]. apply Hfold.
Qed.

(** C1 (the script falls short of it). A parse error in one file is to
    leave the rest of the batch running: a directory with one valid and one
    malformed file is to give one output file and a run that completes.
    [main] has no handler around [convert_alignment_file]: on that directory
    the run ends with the parse error of [a_malformed.ttl], the first file in
    sorted order, before [b_valid.ttl] is looked at, and writes no file;
    without the malformed file the valid one is converted. *)
Theorem batch_halts_at_malformed_file :
  sorted (glob_ttl SampleDir.entries)
  = [ ("a_malformed.ttl", None); ("b_valid.ttl", Some Sample.one_cell) ]
  /\ main Sample.builtins "in" None (Some SampleDir.entries) Sample.w0
     = (Raised ParseError,
        mkWorld [ "Processing in/a_malformed.ttl -> in/a_malformed_sssom.ttl" ] [])
  /\ main Sample.builtins "in" None (Some [ ("b_valid.ttl", Some Sample.one_cell) ])
          Sample.w0
     = (Returned,
        mkWorld [ "Processing in/b_valid.ttl -> in/b_valid_sssom.ttl";
                  "  [OK] Wrote in/b_valid_sssom.ttl" ]
                [ ("in/b_valid_sssom.ttl",
                   mkOutGraph out_namespaces
                     (final_graph Sample.builtins Sample.one_cell
                        (SampleRuns.v_of Sample.one_cell)
                        (mapping_set_iri_of (mkPath "in" "b_valid.ttl")))) ]).
Proof.
  repeat split; vm_compute; reflexivity.
Qed.

(** ** C10: the typing of cells *)

Section StringFacts.

Lemma ends_Cell_not_Alignment (s : string) :
  PyStr.endswith s "Cell" = true -> PyStr.endswith s "Alignment" = false.
Proof.
  unfold PyStr.endswith.
  change (PyStr.rev_string "Cell") with "lleC".
  change (PyStr.rev_string "Alignment") with "tnemngilA".
  destruct (PyStr.rev_string s) as [| c r]; [discriminate |].
  cbn [prefix]. destruct (ascii_dec "l" c) as [<- | _]; [| discriminate].
  intros _. reflexivity.
Qed.

(** The local name of [rdf:type] ends with none of the role suffixes. *)
Lemma type_is_no_role :
  forallb (fun suf => negb (PyStr.endswith (local_name RDF_type) suf))
          role_suffixes = true.
Proof. vm_compute. reflexivity. Qed.

End StringFacts.

Section DiscoveryFacts.

Import Discovery.

Lemma find_dict_of (g : Graph) :
  find_predicates_and_classes g = dict_of (discovered g).
Proof. reflexivity. Qed.

Lemma triples_all (g : Graph) : triples g None None None = g.
Proof.
  unfold triples. induction g as [| t g IH]; [reflexivity |].
  simpl. apply (f_equal (cons t)). exact IH.
Qed.

(** The converter reads the dictionary through [preds_of] and
    [missing_of]: neither looks at the Cell class. *)
Lemma preds_of_erase (r : Roles) :
  preds_of (dict_of r) = preds_of (dict_of (erase_cell r)).
Proof. destruct r. reflexivity. Qed.

Lemma missing_of_erase (r : Roles) :
  missing_of (dict_of r) = missing_of (dict_of (erase_cell r)).
Proof. destruct r. reflexivity. Qed.

(** One step of the scan acts on the other roles without looking at the
    Cell class. *)
Lemma scan_triple_erase (r r' : Roles) (t : Triple) :
  erase_cell r = erase_cell r' ->
  erase_cell (scan_triple r t) = erase_cell (scan_triple r' t).
Proof.
  destruct r, r', t as [[s p] o]. intros [= -> -> -> -> -> -> -> -> ->].
  unfold scan_triple, scan_predicate, scan_class.
  destruct (PyStr.endswith (local_name p) "onto1");
    [| destruct (PyStr.endswith (local_name p) "onto2");
       [| destruct (PyStr.endswith (local_name p) "map");
          [| destruct (PyStr.endswith (local_name p) "entity1");
             [| destruct (PyStr.endswith (local_name p) "entity2");
                [| destruct (PyStr.endswith (local_name p) "measure");
                   [| destruct (PyStr.endswith (local_name p) "relation");
                      [| destruct (PyStr.endswith (local_name p) "cid")]]]]]]];
    destruct (Term_eqb p RDF_type && isURIRef o);
    try reflexivity;
    destruct (PyStr.endswith (local_name o) "Alignment"); try reflexivity;
    destruct (PyStr.endswith (local_name o) "Cell"); reflexivity.
Qed.

(** A cell-typing triple changes the Cell class at most. *)
Lemma scan_cell_typing (r : Roles) (t : Triple) :
  cell_typing t = true -> erase_cell (scan_triple r t) = erase_cell r.
Proof.
  destruct t as [[s p] o]. unfold cell_typing. cbn [fst snd].
  intros H. apply andb_prop in H. destruct H as [Hp Ho].
  apply Term_eqb_eq in Hp. subst p.
  unfold scan_triple.
  assert (Hpred : scan_predicate r RDF_type = r) by (destruct r; reflexivity).
  rewrite Hpred. unfold scan_class. destruct r.
  rewrite Term_eqb_refl, (ends_Cell_not_Alignment _ Ho), Ho.
  destruct (isURIRef o); reflexivity.
Qed.

Lemma scan_erase (g : Graph) (r r' : Roles) :
  erase_cell r = erase_cell r' ->
  erase_cell (fold_left scan_triple g r)
  = erase_cell (fold_left scan_triple (without_cell_typing g) r').
Proof.
  revert r r'. induction g as [| t g IH]; intros r r' H; [exact H |].
  cbn [fold_left without_cell_typing filter].
  destruct (cell_typing t) eqn:Ht; cbn [negb fold_left].
  - apply IH. rewrite scan_cell_typing; assumption.
  - apply IH. now apply scan_triple_erase.
Qed.

Lemma discovered_erase (g : Graph) :
  erase_cell (discovered g) = erase_cell (discovered (without_cell_typing g)).
Proof.
  unfold discovered. rewrite !triples_all. now apply scan_erase.
Qed.

End DiscoveryFacts.

Lemma suffix_not_type (p : Term) (suf : string) :
  In suf role_suffixes -> PyStr.endswith (local_name p) suf = true ->
  role_ok (Some p).
Proof.
  intros Hin E q [= <-] ->.
  pose proof type_is_no_role as H.
  rewrite forallb_forall in H. specialize (H suf Hin).
  rewrite E in H. discriminate H.
Qed.

Lemma scan_triple_ok (r : Discovery.Roles) (t : Triple) :
  roles_ok r -> roles_ok (Discovery.scan_triple r t).
Proof.
  destruct r, t as [[s p] o]. unfold roles_ok. cbn -[role_ok class_ok].
  intros (H1 & H2 & H3 & H4 & H5 & H6 & H7 & H8 & H9).
  assert (Hcls : PyStr.endswith (local_name o) "Alignment" = true ->
                 class_ok (Some o)) by (intros E c [= <-]; exact E).
  unfold Discovery.scan_predicate.
  destruct (PyStr.endswith (local_name p) "onto1") eqn:E1;
    [| destruct (PyStr.endswith (local_name p) "onto2") eqn:E2;
       [| destruct (PyStr.endswith (local_name p) "map") eqn:E3;
          [| destruct (PyStr.endswith (local_name p) "entity1") eqn:E4;
             [| destruct (PyStr.endswith (local_name p) "entity2") eqn:E5;
                [| destruct (PyStr.endswith (local_name p) "measure") eqn:E6;
                   [| destruct (PyStr.endswith (local_name p) "relation") eqn:E7;
                      [| destruct (PyStr.endswith (local_name p) "cid") eqn:E8]]]]]]];
    unfold Discovery.scan_class;
    destruct (Term_eqb p RDF_type && isURIRef o);
    try destruct (PyStr.endswith (local_name o) "Alignment") eqn:EA;
    try destruct (PyStr.endswith (local_name o) "Cell");
    cbn -[role_ok class_ok]; repeat split; try assumption; auto;
    (eapply suffix_not_type; [| eassumption]); simpl; tauto.
Qed.

Lemma discovered_ok (g : Graph) : roles_ok (Discovery.discovered g).
Proof.
  unfold Discovery.discovered.
  assert (H0 : roles_ok Discovery.no_roles) by (repeat split; intros x; discriminate).
  revert H0. generalize Discovery.no_roles.
  induction (triples g None None None) as [| t l IH]; intros r Hr; [exact Hr |].
  simpl. apply IH, scan_triple_ok, Hr.
Qed.

(** ** Queries on the graph without the cell-typing triples *)

Lemma filter_absorb {A : Type} (f keep : A -> bool) (l : list A) :
  (forall x, f x = true -> keep x = true) ->
  filter f (filter keep l) = filter f l.
Proof.
  intros H. induction l as [| x l IH]; [reflexivity |].
  simpl. destruct (keep x) eqn:Hk; simpl.
  - now rewrite IH.
  - destruct (f x) eqn:Hf; [| exact IH].
    apply H in Hf. congruence.
Qed.

Lemma triples_pred_clean (g : Graph) (s o : option Term) (p : Term) :
  p <> RDF_type ->
  triples (without_cell_typing g) s (Some p) o = triples g s (Some p) o.
Proof.
  intros Hp. unfold triples, without_cell_typing. apply filter_absorb.
  intros [[s' p'] o'] H. cbn [fst snd matches] in H.
  apply andb_prop in H. destruct H as [H _].
  apply andb_prop in H. destruct H as [_ H]. apply Term_eqb_eq in H. subst p'.
  unfold cell_typing. cbn [fst snd].
  destruct (Term_eqb p RDF_type) eqn:E; [| reflexivity].
  apply Term_eqb_eq in E. contradiction.
Qed.

Lemma triples_class_clean (g : Graph) (c : Term) :
  PyStr.endswith (local_name c) "Alignment" = true ->
  triples (without_cell_typing g) None (Some RDF_type) (Some c)
  = triples g None (Some RDF_type) (Some c).
Proof.
  intros Hc. unfold triples, without_cell_typing. apply filter_absorb.
  intros [[s' p'] o'] H. cbn [fst snd matches] in H.
  apply andb_prop in H. destruct H as [_ H]. apply Term_eqb_eq in H. subst o'.
  unfold cell_typing. cbn [fst snd].
  destruct (PyStr.endswith (local_name c) "Cell") eqn:E.
  - apply ends_Cell_not_Alignment in E. congruence.
  - now rewrite andb_false_r.
Qed.

Lemma objects_clean (g : Graph) (s p : Term) :
  p <> RDF_type ->
  objects (without_cell_typing g) s (Some p) = objects g s (Some p).
Proof.
  intros Hp. unfold objects. now rewrite triples_pred_clean.
Qed.

Lemma value_clean (g : Graph) (s : Term) (o : option Term) :
  role_ok o -> value (without_cell_typing g) s o = value g s o.
Proof.
  intros Ho. destruct o as [p |]; [| reflexivity].
  unfold value. rewrite objects_clean; [reflexivity | now apply Ho].
Qed.

Lemma fold_left_ext_eq {A C : Type} (f f' : A -> C -> A) (l : list C) (a : A) :
  (forall x y, f x y = f' x y) -> fold_left f l a = fold_left f' l a.
Proof.
  intros H. revert a. induction l as [| y l IH]; intros a; [reflexivity |].
  simpl. now rewrite H, IH.
Qed.

Section CleanLoops.

Variable B : Builtins.
Variable g : Graph.
Variable v : Preds.
Variable iri : Term.

Hypothesis onto1_ok : role_ok (onto1_pred v).
Hypothesis onto2_ok : role_ok (onto2_pred v).
Hypothesis entity1_ok : role_ok (entity1_pred v).
Hypothesis entity2_ok : role_ok (entity2_pred v).
Hypothesis measure_ok : role_ok (measure_pred v).
Hypothesis relation_ok : role_ok (relation_pred v).
Hypothesis cid_ok : role_ok (cid_pred v).
Hypothesis map_ok : role_ok (map_pred v).
Hypothesis map_found : map_pred v <> None.
Hypothesis class_found : alignment_class v <> None.
Hypothesis alignment_ok : class_ok (alignment_class v).

Lemma cell_body_clean (st : Locals) (cell : Term) :
  cell_body B (without_cell_typing g) v iri st cell = cell_body B g v iri st cell.
Proof.
  unfold cell_body, cid_val_of. now rewrite !value_clean.
Qed.

Lemma aln_body_clean (st : Locals) (aln : Term) :
  aln_body B (without_cell_typing g) v iri st aln = aln_body B g v iri st aln.
Proof.
  unfold aln_body. rewrite !value_clean by assumption.
  destruct (map_pred v) as [mp |] eqn:Hmp; [| congruence].
  rewrite objects_clean by now apply map_ok.
  apply fold_left_ext_eq. apply cell_body_clean.
Qed.

Lemma alignments_clean :
  alignments_of (without_cell_typing g) v = alignments_of g v.
Proof.
  unfold alignments_of. destruct (alignment_class v) as [c |] eqn:Hc; [| congruence].
  rewrite triples_class_clean; [reflexivity | now apply alignment_ok].
Qed.

Lemma final_graph_clean :
  final_graph B (without_cell_typing g) v iri = final_graph B g v iri.
Proof.
  unfold final_graph, after_loops. rewrite alignments_clean.
  rewrite (fold_left_ext_eq _ _ _ _ aln_body_clean). reflexivity.
Qed.

End CleanLoops.

Lemma preds_of_dict_of (r : Discovery.Roles) :
  preds_of (dict_of r)
  = mkPreds (Discovery.onto1_pred r) (Discovery.onto2_pred r)
            (Discovery.map_pred r) (Discovery.entity1_pred r)
            (Discovery.entity2_pred r) (Discovery.measure_pred r)
            (Discovery.relation_pred r) (Discovery.cid_pred r)
            (Discovery.alignment_class r).
Proof. reflexivity. Qed.

Lemma none_missing (r : Discovery.Roles) :
  missing_of (dict_of r) = [] ->
  Discovery.map_pred r <> None /\ Discovery.alignment_class r <> None.
Proof.
  intros Hm. split; intros Hnone.
  - assert (H : In "map" (missing_of (dict_of r))).
    { apply missing_of_In. split; [simpl; tauto | exact Hnone]. }
    rewrite Hm in H. destruct H.
  - assert (H : In "Alignment" (missing_of (dict_of r))).
    { apply missing_of_In. split; [simpl; tauto | exact Hnone]. }
    rewrite Hm in H. destruct H.
Qed.

(** The conversion of a graph is the conversion of the graph without its
    cell-typing triples. *)
Lemma convert_without_cell_typing
  (B : Builtins) (p out : Path) (w : World) (g : Graph) :
  convert_alignment_file B (mkInFile p (Some (without_cell_typing g))) out w
  = convert_alignment_file B (mkInFile p (Some g)) out w.
Proof.
  unfold convert_alignment_file. cbn [parsed in_path].
  rewrite !find_dict_of.
  pose proof (discovered_erase g) as He.
  pose proof (discovered_ok g) as Hok.
  set (r := Discovery.discovered g) in *.
  set (r' := Discovery.discovered (without_cell_typing g)) in *.
  rewrite (missing_of_erase r'), (preds_of_erase r'), <- He,
    <- (missing_of_erase r), <- (preds_of_erase r).
  destruct (missing_of (dict_of r)) as [| k ks] eqn:Hm; [| reflexivity].
  destruct (none_missing r Hm) as [Hmap Hcls].
  destruct Hok as (H1 & H2 & H3 & H4 & H5 & H6 & H7 & H8 & H9).
  rewrite preds_of_dict_of.
  rewrite alignments_clean by assumption.
  rewrite final_graph_clean by assumption.
  reflexivity.
Qed.

(** C10. Two input graphs that differ only in [rdf:type] triples whose
    object has a local name ending with "Cell" are converted alike: same
    outcome, same console lines, same output graph, hence the same mapping
    triples. The cells that the loops visit are the objects of the map
    predicate at the Alignment resources, whatever their type. *)
Theorem cell_typing_noninterference
  (B : Builtins) (p out : Path) (w : World) (g1 g2 : Graph) :
  without_cell_typing g1 = without_cell_typing g2 ->
  convert_alignment_file B (mkInFile p (Some g1)) out w
  = convert_alignment_file B (mkInFile p (Some g2)) out w
  /\ forall v iri,
       all_mapping_nodes (after_loops B g1 v iri)
       = flat_map (node_of B g1 v iri)
           (flat_map (fun aln => objects g1 aln (map_pred v)) (alignments_of g1 v)).
Proof.
  intros H. split.
  - rewrite <- (convert_without_cell_typing B p out w g1),
      <- (convert_without_cell_typing B p out w g2), H.
    reflexivity.
  - intros v iri. apply after_loops_nodes.
Qed.

Lemma cell_typing_noninterference_witness :
  Sample.run "t" (Some Sample.one_cell)
  = Sample.run "t" (Some SampleRuns.untyped_cell).
Proof.
  exact (proj1 (cell_typing_noninterference Sample.builtins
                  (mkPath "in" "t.ttl") (mkPath "out" "t_sssom.ttl") Sample.w0
                  Sample.one_cell SampleRuns.untyped_cell eq_refl)).
Defined.

(** * Further properties of the scripts *)

(** ** Strings: suffixes and splitting *)

Lemma append_nil_r (s : string) : s ++ "" = s.
Proof. induction s as [| c s IH]; simpl; [reflexivity | now rewrite IH]. Qed.

Lemma append_assoc (a b c : string) : (a ++ b) ++ c = a ++ b ++ c.
Proof. induction a as [| x a IH]; simpl; [reflexivity | now rewrite IH]. Qed.

Lemma list_of_append (a b : string) :
  list_ascii_of_string (a ++ b)
  = (list_ascii_of_string a ++ list_ascii_of_string b)%list.
Proof. induction a as [| x a IH]; simpl; [reflexivity | now rewrite IH]. Qed.

Lemma string_of_app (l1 l2 : list ascii) :
  string_of_list_ascii (l1 ++ l2)
  = string_of_list_ascii l1 ++ string_of_list_ascii l2.
Proof. induction l1 as [| x l1 IH]; simpl; [reflexivity | now rewrite IH]. Qed.

Lemma rev_string_append (a b : string) :
  PyStr.rev_string (a ++ b) = PyStr.rev_string b ++ PyStr.rev_string a.
Proof.
  unfold PyStr.rev_string. now rewrite list_of_append, rev_app_distr, string_of_app.
Qed.

Lemma rev_string_involutive (s : string) :
  PyStr.rev_string (PyStr.rev_string s) = s.
Proof.
  unfold PyStr.rev_string.
  now rewrite list_ascii_of_string_of_list_ascii, rev_involutive,
    string_of_list_ascii_of_string.
Qed.

Lemma prefix_cons (c d : ascii) (p s : string) :
  prefix (String c p) (String d s)
  = if ascii_dec c d then prefix p s else false.
Proof. reflexivity. Qed.

Lemma prefix_iff (p s : string) :
  prefix p s = true <-> exists r, s = p ++ r.
Proof.
  revert s. induction p as [| c p IH]; intros s.
  - destruct s; simpl; (split; [intros _; eexists; reflexivity | reflexivity]).
  - destruct s as [| d s].
    + simpl. split; [discriminate | intros (r & H); discriminate H].
    + rewrite prefix_cons. destruct (ascii_dec c d) as [-> | Hne].
      * rewrite IH. simpl. split; intros (r & H); exists r; congruence.
      * simpl. split; [discriminate | intros (r & H); congruence].
Qed.

(** [s.endswith(suf)] holds exactly when [s] is some text followed by
    [suf]. *)
Lemma endswith_iff (s suf : string) :
  PyStr.endswith s suf = true <-> exists base, s = base ++ suf.
Proof.
  unfold PyStr.endswith. rewrite prefix_iff. split.
  - intros (r & H). exists (PyStr.rev_string r).
    rewrite <- (rev_string_involutive s), H, rev_string_append.
    now rewrite rev_string_involutive.
  - intros (base & ->). exists (PyStr.rev_string base). apply rev_string_append.
Qed.

Lemma prefix_both (a b s : string) :
  prefix a s = true -> prefix b s = true ->
  prefix a b = true \/ prefix b a = true.
Proof.
  revert b s. induction a as [| x a IH]; intros b s Ha Hb; [left; now destruct b |].
  destruct b as [| y b]; [now right |].
  destruct s as [| z s]; [discriminate Ha |].
  rewrite prefix_cons in Ha, Hb.
  destruct (ascii_dec x z) as [-> | ]; [| discriminate].
  destruct (ascii_dec y z) as [-> | ]; [| discriminate].
  rewrite !prefix_cons.
  destruct (ascii_dec z z) as [_ | Hn]; [| now destruct Hn].
  eapply IH; eassumption.
Qed.

(** Two role suffixes that match the same local name are the same. *)
Theorem role_suffixes_exclusive (s suf1 suf2 : string) :
  In suf1 role_suffixes -> In suf2 role_suffixes ->
  PyStr.endswith s suf1 = true -> PyStr.endswith s suf2 = true ->
  suf1 = suf2.
Proof.
  intros H1 H2 E1 E2. unfold PyStr.endswith in *.
  destruct (prefix_both _ _ _ E1 E2) as [H | H]; revert H; clear E1 E2;
    simpl in H1, H2;
    repeat (destruct H1 as [<- | H1]; [| ]); try contradiction;
    repeat (destruct H2 as [<- | H2]; [| ]); try contradiction;
    vm_compute; congruence.
Qed.

(** ** local_name *)

Lemma contains_append (c : ascii) (a b : string) :
  PyStr.contains c (a ++ b) = PyStr.contains c a || PyStr.contains c b.
Proof.
  induction a as [| x a IH]; simpl; [reflexivity |].
  destruct (Ascii.eqb x c); [reflexivity | exact IH].
Qed.

Lemma after_last_none (c : ascii) (s : string) :
  PyStr.after_last_opt c s = None <-> PyStr.contains c s = false.
Proof.
  induction s as [| x s IH]; simpl; [tauto |].
  destruct (PyStr.after_last_opt c s) as [t |].
  - destruct (Ascii.eqb x c); split; try discriminate.
    intros H. apply IH in H. discriminate H.
  - destruct (Ascii.eqb x c); split; try discriminate; try reflexivity.
    intros _. now apply IH.
Qed.

Lemma after_last_split (c : ascii) (a b : string) :
  PyStr.contains c b = false ->
  PyStr.after_last_opt c (a ++ String c b) = Some b.
Proof.
  intros Hb. induction a as [| x a IH]; simpl.
  - apply after_last_none in Hb. rewrite Hb. now rewrite Ascii.eqb_refl.
  - now rewrite IH.
Qed.

Lemma after_last_clean (c : ascii) (s t : string) :
  PyStr.after_last_opt c s = Some t -> PyStr.contains c t = false.
Proof.
  revert t. induction s as [| x s IH]; intros t; simpl; [discriminate |].
  destruct (PyStr.after_last_opt c s) as [t' |] eqn:E.
  - intros [= <-]. now apply IH.
  - destruct (Ascii.eqb x c); [| discriminate].
    intros [= <-]. now apply after_last_none.
Qed.

Lemma after_last_keeps (c d : ascii) (s t : string) :
  PyStr.after_last_opt c s = Some t ->
  PyStr.contains d s = false -> PyStr.contains d t = false.
Proof.
  revert t. induction s as [| x s IH]; intros t; simpl; [discriminate |].
  destruct (Ascii.eqb x d); [discriminate |].
  destruct (PyStr.after_last_opt c s) as [t' |] eqn:E.
  - intros [= <-]. now apply IH.
  - destruct (Ascii.eqb x c); [| discriminate]. now intros [= <-].
Qed.

Lemma rstrip_keeps (c d : ascii) (s : string) :
  PyStr.contains d s = false -> PyStr.contains d (PyStr.rstrip c s) = false.
Proof.
  induction s as [| x s IH]; simpl; [reflexivity |].
  destruct (Ascii.eqb x d) eqn:Ex; [discriminate |]. intros H.
  specialize (IH H).
  destruct (PyStr.rstrip c s) as [| y r].
  - destruct (Ascii.eqb x c); simpl; [reflexivity | now rewrite Ex].
  - change (PyStr.contains d (String x (String y r)) = false).
    simpl. rewrite Ex. exact IH.
Qed.

Lemma rstrip_clean (c : ascii) (s : string) :
  PyStr.contains c s = false -> PyStr.rstrip c s = s.
Proof.
  induction s as [| x s IH]; simpl; [reflexivity |].
  destruct (Ascii.eqb x c) eqn:Ex; [discriminate |]. intros H.
  rewrite (IH H). destruct s; reflexivity.
Qed.

Lemma rstrip_repeat (c : ascii) (k : nat) :
  PyStr.rstrip c (repeat_char c k) = "".
Proof.
  induction k as [| k IH]; simpl; [reflexivity |].
  now rewrite IH, Ascii.eqb_refl.
Qed.

Lemma rstrip_trailing (c : ascii) (s : string) (k : nat) :
  PyStr.rstrip c (s ++ repeat_char c k) = PyStr.rstrip c s.
Proof.
  induction s as [| x s IH]; simpl; [apply rstrip_repeat | now rewrite IH].
Qed.

Lemma rstrip_append (c : ascii) (a b : string) :
  PyStr.rstrip c b <> "" -> PyStr.rstrip c (a ++ b) = a ++ PyStr.rstrip c b.
Proof.
  intros Hb. induction a as [| x a IH]; simpl; [reflexivity |].
  rewrite IH. destruct (a ++ PyStr.rstrip c b) eqn:E; [| reflexivity].
  destruct a; simpl in E; [contradiction | discriminate].
Qed.

(** X1. The local name of [<namespace>#<name>] is [<name>]. *)
Theorem local_name_hash_namespace (t : Term) (ns n : string) :
  str t = ns ++ "#" ++ n ->
  PyStr.contains "#" n = false ->
  local_name t = n.
Proof.
  intros Hs Hn. unfold local_name. rewrite Hs.
  rewrite contains_append. simpl PyStr.contains at 2.
  rewrite orb_true_r. unfold PyStr.rsplit_last.
  change (ns ++ "#" ++ n) with (ns ++ String "#" n).
  now rewrite after_last_split.
Qed.

Lemma local_name_hash_namespace_witness :
  local_name (URIRef "http://www.w3.org/2002/07/owl#Axiom") = "Axiom".
Proof.
  exact (local_name_hash_namespace (URIRef "http://www.w3.org/2002/07/owl#Axiom")
           "http://www.w3.org/2002/07/owl" "Axiom" eq_refl eq_refl).
Defined.

(** X2. The local name of [<namespace>/<name>], with any number of trailing
    slashes, is [<name>]. *)
Theorem local_name_slash_namespace (t : Term) (ns n : string) (k : nat) :
  str t = ns ++ "/" ++ n ++ repeat_char "/" k ->
  PyStr.contains "#" (str t) = false ->
  PyStr.contains "/" n = false ->
  n <> "" ->
  local_name t = n.
Proof.
  intros Hs Hh Hn Hne. unfold local_name. rewrite Hh, Hs.
  replace (ns ++ "/" ++ n ++ repeat_char "/" k)
    with ((ns ++ "/") ++ n ++ repeat_char "/" k) by apply append_assoc.
  rewrite rstrip_append; rewrite rstrip_trailing, (rstrip_clean _ _ Hn);
    [| assumption].
  rewrite append_assoc. unfold PyStr.rsplit_last.
  change ("/" ++ n) with (String "/" n).
  now rewrite after_last_split.
Qed.

Lemma local_name_slash_namespace_witness :
  local_name (URIRef "http://a/b/map///") = "map".
Proof.
  exact (local_name_slash_namespace (URIRef "http://a/b/map///")
           "http://a/b" "map" 3 eq_refl eq_refl eq_refl
           (fun H => match H with end)).
Defined.

(** X3. A local name holds no [#]; it holds no [/] either when the IRI has
    no [#]. *)
Theorem local_name_has_no_separator (t : Term) :
  PyStr.contains "#" (local_name t) = false
  /\ (PyStr.contains "#" (str t) = false ->
      PyStr.contains "/" (local_name t) = false).
Proof.
  unfold local_name, PyStr.rsplit_last.
  destruct (PyStr.contains "#" (str t)) eqn:Hh.
  - split; [| discriminate].
    destruct (PyStr.after_last_opt "#" (str t)) as [u |] eqn:E.
    + now apply after_last_clean in E.
    + apply after_last_none in E. congruence.
  - pose proof (rstrip_keeps "/" "#" _ Hh) as Hr.
    destruct (PyStr.after_last_opt "/" (PyStr.rstrip "/" (str t))) as [u |] eqn:E.
    + split; [now apply (after_last_keeps _ _ _ _ E) |].
      intros _. now apply after_last_clean in E.
    + split; [exact Hr |]. intros _. now apply after_last_none.
Qed.

(** ** Discovery: the last match wins *)

Lemma last_with_snoc (f : Triple -> bool) (g : Graph) (t : Triple) :
  last_with f (g ++ [t])%list = if f t then Some t else last_with f g.
Proof.
  unfold last_with. rewrite filter_app, rev_app_distr. simpl.
  destruct (f t); reflexivity.
Qed.

Lemma last_with_In (f : Triple -> bool) (g : Graph) (t : Triple) :
  last_with f g = Some t -> In t g /\ f t = true.
Proof.
  unfold last_with. intros H. apply filter_In, in_rev.
  destruct (rev (filter f g)) as [| x l]; [discriminate |].
  injection H as ->. now left.
Qed.

Ltac two_suffixes :=
  match goal with
  | H1 : PyStr.endswith ?s ?a = true, H2 : PyStr.endswith ?s ?b = true |- _ =>
      let E := fresh in
      assert (E : a = b)
        by (apply (role_suffixes_exclusive s);
            [simpl; tauto | simpl; tauto | exact H1 | exact H2]);
      discriminate E
  end.

Lemma scan_class_roles (r : Discovery.Roles) (p o : Term) (suf : string) :
  In suf role_suffixes ->
  Discovery.dict_get (dict_of (Discovery.scan_class r p o)) suf
  = Discovery.dict_get (dict_of r) suf.
Proof.
  intros Hin. destruct r. unfold Discovery.scan_class.
  destruct (Term_eqb p RDF_type && isURIRef o); [| reflexivity].
  destruct (PyStr.endswith (local_name o) "Alignment");
    [| destruct (PyStr.endswith (local_name o) "Cell")];
    simpl in Hin; intuition (subst; reflexivity).
Qed.

Lemma scan_predicate_roles (r : Discovery.Roles) (p : Term) (suf : string) :
  In suf role_suffixes ->
  Discovery.dict_get (dict_of (Discovery.scan_predicate r p)) suf
  = if PyStr.endswith (local_name p) suf then Some p
    else Discovery.dict_get (dict_of r) suf.
Proof.
  intros Hin. destruct r. unfold Discovery.scan_predicate.
  destruct (PyStr.endswith (local_name p) "onto1") eqn:E1;
    [| destruct (PyStr.endswith (local_name p) "onto2") eqn:E2;
       [| destruct (PyStr.endswith (local_name p) "map") eqn:E3;
          [| destruct (PyStr.endswith (local_name p) "entity1") eqn:E4;
             [| destruct (PyStr.endswith (local_name p) "entity2") eqn:E5;
                [| destruct (PyStr.endswith (local_name p) "measure") eqn:E6;
                   [| destruct (PyStr.endswith (local_name p) "relation") eqn:E7;
                      [| destruct (PyStr.endswith (local_name p) "cid") eqn:E8]]]]]]];
    simpl in Hin;
    repeat (destruct Hin as [<- | Hin]);
    try contradiction;
    repeat match goal with
           | H : PyStr.endswith _ _ = _ |- _ => rewrite H
           end;
    try reflexivity;
    match goal with
    | |- context [if PyStr.endswith ?s ?b then _ else _] =>
        destruct (PyStr.endswith s b) eqn:En; [exfalso; two_suffixes | reflexivity]
    end.
Qed.

Lemma scan_triple_roles (r : Discovery.Roles) (t : Triple) (suf : string) :
  In suf role_suffixes ->
  Discovery.dict_get (dict_of (Discovery.scan_triple r t)) suf
  = if predicate_has_suffix suf t then Some (snd (fst t))
    else Discovery.dict_get (dict_of r) suf.
Proof.
  intros Hin. destruct t as [[s p] o]. unfold Discovery.scan_triple.
  rewrite scan_class_roles by assumption. now apply scan_predicate_roles.
Qed.

(** X5. Each predicate role is the predicate of the last triple of the graph
    whose predicate has a local name ending with the role's suffix, and is
    unresolved when there is no such triple. *)
Theorem discovery_role_is_last_match (g : Graph) (suf : string) :
  In suf role_suffixes ->
  Discovery.dict_get (Discovery.find_predicates_and_classes g) suf
  = option_map (fun t => snd (fst t)) (last_with (predicate_has_suffix suf) g).
Proof.
  intros Hin. rewrite find_dict_of. unfold Discovery.discovered.
  rewrite triples_all.
  induction g as [| t g IH] using rev_ind.
  - simpl in Hin. intuition (subst; reflexivity).
  - rewrite fold_left_app, last_with_snoc. simpl fold_left.
    rewrite scan_triple_roles by assumption.
    destruct (predicate_has_suffix suf t); [reflexivity | exact IH].
Qed.

Lemma discovery_role_is_last_match_witness :
  Discovery.dict_get (Discovery.find_predicates_and_classes Sample.one_cell) "map"
  = Some (Sample.api "map").
Proof.
  exact (discovery_role_is_last_match Sample.one_cell "map"
           (or_intror (or_intror (or_introl eq_refl)))).
Defined.

Lemma scan_triple_classes (r : Discovery.Roles) (t : Triple) :
  Discovery.dict_get (dict_of (Discovery.scan_triple r t)) "Alignment"
  = (if types_as "Alignment" t then Some (snd t)
     else Discovery.dict_get (dict_of r) "Alignment")
  /\ Discovery.dict_get (dict_of (Discovery.scan_triple r t)) "Cell"
     = (if types_as "Cell" t then Some (snd t)
        else Discovery.dict_get (dict_of r) "Cell").
Proof.
  destruct t as [[s p] o]. unfold Discovery.scan_triple, types_as. cbn [fst snd].
  assert (Hp : Discovery.alignment_class (Discovery.scan_predicate r p)
               = Discovery.alignment_class r
               /\ Discovery.cell_class (Discovery.scan_predicate r p)
                  = Discovery.cell_class r).
  { destruct r. unfold Discovery.scan_predicate.
    repeat match goal with
           | |- context [if ?c then _ else _] => destruct c
           end; split; reflexivity. }
  destruct Hp as [Ha Hc].
  destruct (Discovery.scan_predicate r p) as [o1 o2 mp e1 e2 ms rl cd al ce].
  cbn in Ha, Hc. subst al ce. unfold Discovery.scan_class.
  destruct (Term_eqb p RDF_type && isURIRef o); [| now destruct r].
  destruct (PyStr.endswith (local_name o) "Alignment") eqn:EA.
  - destruct (PyStr.endswith (local_name o) "Cell") eqn:EC.
    + apply ends_Cell_not_Alignment in EC. congruence.
    + now destruct r.
  - destruct (PyStr.endswith (local_name o) "Cell"); now destruct r.
Qed.

Lemma classes_last_match (g : Graph) :
  Discovery.dict_get (Discovery.find_predicates_and_classes g) "Alignment"
  = option_map (fun t => snd t) (last_with (types_as "Alignment") g)
  /\ Discovery.dict_get (Discovery.find_predicates_and_classes g) "Cell"
     = option_map (fun t => snd t) (last_with (types_as "Cell") g).
Proof.
  rewrite find_dict_of. unfold Discovery.discovered. rewrite triples_all.
  induction g as [| t g IH] using rev_ind; [now split |].
  rewrite fold_left_app, !last_with_snoc. simpl fold_left.
  destruct (scan_triple_classes (fold_left Discovery.scan_triple g Discovery.no_roles) t)
    as [Ha Hc].
  rewrite Ha, Hc. destruct IH as [IHa IHc].
  destruct (types_as "Alignment" t), (types_as "Cell" t); now split.
Qed.

(** X6. The Alignment class and the Cell class are the objects of the last
    [rdf:type] triple whose object is an IRI with a local name ending with
    "Alignment", respectively "Cell". *)
Theorem discovery_class_is_last_match (g : Graph) :
  Discovery.dict_get (Discovery.find_predicates_and_classes g) "Alignment"
  = option_map (fun t => snd t) (last_with (types_as "Alignment") g)
  /\ Discovery.dict_get (Discovery.find_predicates_and_classes g) "Cell"
     = option_map (fun t => snd t) (last_with (types_as "Cell") g).
Proof. exact (classes_last_match g). Qed.

(** ** The branch "No :Alignment instances found" *)

Lemma resolved_class_has_instance (g : Graph) (c : Term) :
  Discovery.dict_get (Discovery.find_predicates_and_classes g) "Alignment" = Some c ->
  exists s, In (s, RDF_type, c) g.
Proof.
  intros H. rewrite (proj1 (classes_last_match g)) in H.
  destruct (last_with (types_as "Alignment") g) as [[[s p] o] |] eqn:E; [| discriminate].
  injection H as ->. apply last_with_In in E. destruct E as [Hin Ht].
  unfold types_as in Ht. cbn [fst snd] in Ht.
  apply andb_prop in Ht. destruct Ht as [Ht _].
  apply andb_prop in Ht. destruct Ht as [Ht _].
  apply Term_eqb_eq in Ht. subst p. now exists s.
Qed.

(** X7. A file that parses is either skipped for missing roles or converted:
    when the eight required roles are resolved the graph has a resource of
    the Alignment class, so the warning "No :Alignment instances found" is
    never printed. *)
Theorem conversion_is_skip_or_write
  (B : Builtins) (p out : Path) (g : Graph) (w : World) :
  let preds := Discovery.find_predicates_and_classes g in
  convert_alignment_file B (mkInFile p (Some g)) out w
  = match missing_of preds with
    | [] =>
        (Returned,
         mkWorld (console w ++ [ processing_line p out; ok_line out ])%list
                 (written w
                  ++ [ (path_str out,
                        mkOutGraph out_namespaces
                          (final_graph B g (preds_of preds)
                             (mapping_set_iri_of p))) ])%list)
    | _ :: _ =>
        (Returned,
         mkWorld (console w
                  ++ [ processing_line p out;
                       missing_warning p (missing_of preds) ])%list
                 (written w))
    end.
Proof.
  intros preds. unfold convert_alignment_file. cbn [parsed in_path]. fold preds.
  destruct (missing_of preds) as [| k ks] eqn:Hm.
  - destruct (alignments_of g (preds_of preds)) as [| a al] eqn:Ha.
    + exfalso.
      destruct (Discovery.dict_get preds "Alignment") as [c |] eqn:Hc.
      * destruct (resolved_class_has_instance g c Hc) as [s Hin].
        assert (Hs : In s (alignments_of g (preds_of preds))).
        { unfold alignments_of, pyset. apply nodup_In. apply in_map_iff.
          exists (s, RDF_type, c). split; [reflexivity |].
          apply filter_In. split; [assumption |].
          cbn [alignment_class preds_of fst snd matches]. rewrite Hc.
          cbn [matches]. now rewrite !Term_eqb_refl. }
        rewrite Ha in Hs. destruct Hs.
      * assert (H : In "Alignment" (missing_of preds)).
        { apply missing_of_In. split; [simpl; tauto | exact Hc]. }
        rewrite Hm in H. destruct H.
    + unfold print, serialize, ok_line, processing_line. cbn [console written].
      now rewrite <- app_assoc.
  - unfold print, missing_warning, processing_line. cbn [console written].
    now rewrite <- app_assoc.
Qed.

(** ** The shape of the output graph *)

Section OutputFacts.

Variable B : Builtins.
Variable g_in : Graph.
Variable v : Preds.
Variable iri : Term.

Lemma cell_adds_shape (cid_val : option Term) (subj obj : Term)
      (measure rel : option Term) (t : Triple) :
  In t (cell_adds B iri cid_val subj obj measure rel) ->
  fst (fst t) = mapping_node_of B iri (cid_str_of B cid_val) subj obj
  /\ In (snd (fst t)) mapping_predicates.
Proof.
  unfold cell_adds, confidence_adds. rewrite !in_app_iff.
  destruct (PyStr.nonempty (cid_str_of B cid_val));
    destruct measure as [m |]; try destruct (py_float B (str m)); simpl;
    intuition (subst; simpl; tauto).
Qed.

Lemma cell_adds_subject_id (cid_val : option Term) (subj obj : Term)
      (measure rel : option Term) :
  filter (has_predicate (NS.SSSOM "subject_id"))
         (cell_adds B iri cid_val subj obj measure rel)
  = [ (mapping_node_of B iri (cid_str_of B cid_val) subj obj,
       NS.SSSOM "subject_id", subj) ]
  /\ filter (has_predicate (NS.SSSOM "object_id"))
            (cell_adds B iri cid_val subj obj measure rel)
     = [ (mapping_node_of B iri (cid_str_of B cid_val) subj obj,
          NS.SSSOM "object_id", obj) ]
  /\ filter (has_predicate (NS.SSSOM "mapping_justification"))
            (cell_adds B iri cid_val subj obj measure rel)
     = [ (mapping_node_of B iri (cid_str_of B cid_val) subj obj,
          NS.SSSOM "mapping_justification", NS.SEMAPV "UnspecifiedMatching") ].
Proof.
  unfold cell_adds, confidence_adds.
  destruct (PyStr.nonempty (cid_str_of B cid_val));
    destruct measure as [m |]; try destruct (py_float B (str m));
    repeat split; reflexivity.
Qed.

(** A triple of the serialized graph that is not about the mapping set was
    added by the body of the cell loop at a visited cell. *)
Lemma final_graph_cell_triple (t : Triple) :
  ~ In (snd (fst t)) set_predicates ->
  In t (final_graph B g_in v iri)
  <-> exists cell, In cell (visited g_in v) /\ In t (adds_of B g_in v iri cell).
Proof.
  intros Hp. rewrite final_graph_In, after_loops_graph, fold_graph_add_In,
    in_flat_map.
  destruct t as [[s p] o]. cbn [fst snd] in *. split.
  - intros [[[H | [H | []]] | H] | [[_ H] | [[_ H] | [_ H]]]];
      try (exfalso; apply Hp; inversion H; simpl; tauto).
    exact H.
  - intros H. left. now right.
Qed.

(** X8. Every triple of the output graph is about the mapping set, with one
    of four predicates, or about a collected mapping IRI, with one of
    seven. *)
Theorem output_triples_shape (t : Triple) :
  In t (final_graph B g_in v iri) ->
  (fst (fst t) = iri /\ In (snd (fst t)) set_predicates)
  \/ (In (fst (fst t)) (all_mapping_nodes (after_loops B g_in v iri))
      /\ In (snd (fst t)) mapping_predicates).
Proof.
  intros H. apply final_graph_In in H.
  rewrite after_loops_graph, fold_graph_add_In, in_flat_map in H.
  destruct H as [[[H | [H | []]] | (cell & Hc & H)] | [[_ H] | [[_ H] | [_ H]]]];
    try (left; subst t || rewrite H; simpl; tauto).
  right. rewrite after_loops_nodes, in_flat_map.
  unfold adds_of in H.
  destruct (entities_of g_in v cell) as [[subj obj] |] eqn:E; [| destruct H].
  apply cell_adds_shape in H. destruct H as [Hs Hp]. split; [| exact Hp].
  exists cell. split; [exact Hc |]. unfold node_of. rewrite E, Hs. now left.
Qed.
End OutputFacts.

Section MappingFacts.

Variable B : Builtins.
Variable g_in : Graph.
Variable v : Preds.
Variable iri : Term.

Local Abbreviation final := (final_graph B g_in v iri).
Local Abbreviation node_at cell subj obj :=
  (mapping_node_of B iri (cid_str_of B (cid_val_of g_in v cell)) subj obj).

Lemma adds_of_complete (cell subj obj : Term) :
  entities_of g_in v cell = Some (subj, obj) ->
  adds_of B g_in v iri cell
  = cell_adds B iri (cid_val_of g_in v cell) subj obj
      (value g_in cell (measure_pred v)) (value g_in cell (relation_pred v)).
Proof. intros E. unfold adds_of. now rewrite E. Qed.

(** X9. Every resource typed [sssom:Mapping] in the output graph carries a
    subject, an object, a predicate that is [skos:exactMatch] or
    [skos:relatedMatch], the justification [semapv:UnspecifiedMatching], and
    the link from the mapping set. *)
Theorem mapping_resources_are_complete (s : Term) :
  In (s, RDF_type, NS.SSSOM "Mapping") final ->
  (exists subj, In (s, NS.SSSOM "subject_id", subj) final)
  /\ (exists obj, In (s, NS.SSSOM "object_id", obj) final)
  /\ (In (s, NS.SSSOM "predicate_id", NS.SKOS "exactMatch") final
      \/ In (s, NS.SSSOM "predicate_id", NS.SKOS "relatedMatch") final)
  /\ In (s, NS.SSSOM "mapping_justification", NS.SEMAPV "UnspecifiedMatching") final
  /\ In (iri, NS.SSSOM "mappings", s) final.
Proof.
  intros H. apply mapping_typed_iff_node in H.
  assert (Hlink : In (iri, NS.SSSOM "mappings", s) final).
  { apply final_graph_In. right. right. right. now split. }
  rewrite after_loops_nodes, in_flat_map in H. destruct H as (cell & Hc & Hn).
  unfold node_of in Hn.
  destruct (entities_of g_in v cell) as [[subj obj] |] eqn:E; [| destruct Hn].
  destruct Hn as [<- | []].
  pose proof (adds_of_complete cell subj obj E) as Ha.
  destruct (cell_adds_subject_id B iri (cid_val_of g_in v cell) subj obj
              (value g_in cell (measure_pred v))
              (value g_in cell (relation_pred v))) as (Hs & Ho & Hj).
  pose proof (cell_adds_predicate_id B iri (cid_val_of g_in v cell) subj obj
                (value g_in cell (measure_pred v))
                (value g_in cell (relation_pred v))) as Hp.
  assert (Hin : forall p o,
             filter (has_predicate p)
               (cell_adds B iri (cid_val_of g_in v cell) subj obj
                  (value g_in cell (measure_pred v))
                  (value g_in cell (relation_pred v)))
             = [ (node_at cell subj obj, p, o) ] ->
             In (node_at cell subj obj, p, o) final).
  { intros p o Hf. apply (visited_adds_in_final B g_in v iri cell); [exact Hc |].
    rewrite Ha. apply has_predicate_In. rewrite Hf. now left. }
  split; [exists subj; now apply Hin |].
  split; [exists obj; now apply Hin |].
  split; [| split; [now apply Hin | exact Hlink]].
  apply Hin in Hp. unfold pred_uri_of in Hp.
  destruct (value g_in cell (relation_pred v)) as [r |]; [| now right].
  destruct (isLiteral r && String.eqb (str r) "="); [now left | now right].
Qed.

(** X10. The subjects and objects of the output are the entities of the
    complete cells that the loops visit, each at the mapping IRI of its
    cell. *)
Theorem entities_are_carried_over (s o : Term) :
  (In (s, NS.SSSOM "subject_id", o) final
   <-> exists cell obj,
         In cell (visited g_in v)
         /\ entities_of g_in v cell = Some (o, obj)
         /\ s = node_at cell o obj)
  /\ (In (s, NS.SSSOM "object_id", o) final
      <-> exists cell subj,
            In cell (visited g_in v)
            /\ entities_of g_in v cell = Some (subj, o)
            /\ s = node_at cell subj o).
Proof.
  split.
  - rewrite final_graph_cell_triple
      by (cbn; intros [H | [H | [H | [H | []]]]]; discriminate H).
    split.
    + intros (cell & Hc & Hin). unfold adds_of in Hin.
      destruct (entities_of g_in v cell) as [[subj obj] |] eqn:E; [| destruct Hin].
      apply has_predicate_In in Hin.
      rewrite (proj1 (cell_adds_subject_id B iri _ subj obj _ _)) in Hin.
      destruct Hin as [[= <- <-] | []]. now exists cell, obj.
    + intros (cell & obj & Hc & E & ->). exists cell. split; [exact Hc |].
      rewrite (adds_of_complete cell o obj E). apply has_predicate_In.
      rewrite (proj1 (cell_adds_subject_id B iri _ o obj _ _)). now left.
  - rewrite final_graph_cell_triple
      by (cbn; intros [H | [H | [H | [H | []]]]]; discriminate H).
    split.
    + intros (cell & Hc & Hin). unfold adds_of in Hin.
      destruct (entities_of g_in v cell) as [[subj obj] |] eqn:E; [| destruct Hin].
      apply has_predicate_In in Hin.
      rewrite (proj1 (proj2 (cell_adds_subject_id B iri _ subj obj _ _))) in Hin.
      destruct Hin as [[= <- <-] | []]. now exists cell, subj.
    + intros (cell & subj & Hc & E & ->). exists cell. split; [exact Hc |].
      rewrite (adds_of_complete cell subj o E). apply has_predicate_In.
      rewrite (proj1 (proj2 (cell_adds_subject_id B iri _ subj o _ _))). now left.
Qed.

(** X11. A [sssom:record_id] of the output is a plain literal with a
    non-empty string, and its subject is the mapping IRI made from that
    string. *)
Theorem record_id_matches_iri (s o : Term) :
  In (s, NS.SSSOM "record_id", o) final ->
  exists cid_str,
    cid_str <> ""
    /\ o = Literal cid_str None None
    /\ s = URIRef (str iri ++ "#m" ++ cid_str).
Proof.
  rewrite final_graph_cell_triple
    by (cbn; intros [H | [H | [H | [H | []]]]]; discriminate H).
  intros (cell & Hc & Hin). unfold adds_of in Hin.
  destruct (entities_of g_in v cell) as [[subj obj] |] eqn:E; [| destruct Hin].
  apply has_predicate_In in Hin. rewrite cell_adds_record_id in Hin.
  unfold mapping_node_of in Hin.
  destruct (PyStr.nonempty (cid_str_of B (cid_val_of g_in v cell))) eqn:En;
    [| destruct Hin].
  destruct Hin as [[= <- <-] | []].
  exists (cid_str_of B (cid_val_of g_in v cell)). repeat split.
  intros H0. rewrite H0 in En. discriminate En.
Qed.

(** X12. A [sssom:confidence] of the output is an [xsd:double] literal, the
    float that the measure of a visited complete cell parses to. *)
Theorem confidence_comes_from_a_measure (s o : Term) :
  In (s, NS.SSSOM "confidence", o) final ->
  exists cell m conf_val,
    In cell (visited g_in v)
    /\ complete g_in v cell = true
    /\ value g_in cell (measure_pred v) = Some m
    /\ py_float B (str m) = Some conf_val
    /\ o = Literal (float_lexical B conf_val) (Some (NS.XSD "double")) None.
Proof.
  rewrite final_graph_cell_triple
    by (cbn; intros [H | [H | [H | [H | []]]]]; discriminate H).
  intros (cell & Hc & Hin). unfold adds_of in Hin.
  destruct (entities_of g_in v cell) as [[subj obj] |] eqn:E; [| destruct Hin].
  apply has_predicate_In in Hin. rewrite cell_adds_confidence in Hin.
  unfold complete.
  unfold confidence_adds in Hin.
  destruct (value g_in cell (measure_pred v)) as [m |] eqn:Em; [| destruct Hin].
  destruct (py_float B (str m)) as [conf_val |] eqn:Ef; [| destruct Hin].
  destruct Hin as [[= <- <-] | []].
  exists cell, m, conf_val. rewrite E. repeat split; try assumption; reflexivity.
Qed.

End MappingFacts.

Lemma mapping_resources_are_complete_witness :
  In (URIRef "http://example.org/mappings/t#m1",
      NS.SSSOM "mapping_justification", NS.SEMAPV "UnspecifiedMatching")
     (final_graph Sample.builtins Sample.one_cell
        (SampleRuns.v_of Sample.one_cell) SampleRuns.set_t).
Proof.
  refine (proj1 (proj2 (proj2 (proj2
            (mapping_resources_are_complete Sample.builtins Sample.one_cell
               (SampleRuns.v_of Sample.one_cell) SampleRuns.set_t
               (URIRef "http://example.org/mappings/t#m1") _))))).
  vm_compute. do 2 right. left. reflexivity.
Defined.

Lemma output_triples_shape_witness :
  (SampleRuns.set_t = SampleRuns.set_t
   /\ In (NS.SSSOM "mappings") set_predicates)
  \/ (In SampleRuns.set_t
        (all_mapping_nodes
           (after_loops Sample.builtins Sample.one_cell
              (SampleRuns.v_of Sample.one_cell) SampleRuns.set_t))
      /\ In (NS.SSSOM "mappings") mapping_predicates).
Proof.
  refine (output_triples_shape Sample.builtins Sample.one_cell
            (SampleRuns.v_of Sample.one_cell) SampleRuns.set_t
            (SampleRuns.set_t, NS.SSSOM "mappings",
             URIRef "http://example.org/mappings/t#m1") _).
  vm_compute. do 11 right. left. reflexivity.
Defined.

Lemma record_id_matches_iri_witness :
  exists cid_str,
    cid_str <> ""
    /\ Literal "1" None None = Literal cid_str None None
    /\ URIRef "http://example.org/mappings/t#m1"
       = URIRef (str SampleRuns.set_t ++ "#m" ++ cid_str).
Proof.
  refine (record_id_matches_iri Sample.builtins Sample.one_cell
            (SampleRuns.v_of Sample.one_cell) SampleRuns.set_t
            (URIRef "http://example.org/mappings/t#m1") (Literal "1" None None) _).
  vm_compute. do 3 right. left. reflexivity.
Defined.

Lemma confidence_comes_from_a_measure_witness :
  exists cell m conf_val,
    In cell (visited Sample.one_cell (SampleRuns.v_of Sample.one_cell))
    /\ complete Sample.one_cell (SampleRuns.v_of Sample.one_cell) cell = true
    /\ value Sample.one_cell cell (measure_pred (SampleRuns.v_of Sample.one_cell))
       = Some m
    /\ py_float Sample.builtins (str m) = Some conf_val
    /\ Literal "0.95" (Some (NS.XSD "double")) None
       = Literal (float_lexical Sample.builtins conf_val)
           (Some (NS.XSD "double")) None.
Proof.
  refine (confidence_comes_from_a_measure Sample.builtins Sample.one_cell
            (SampleRuns.v_of Sample.one_cell) SampleRuns.set_t
            (URIRef "http://example.org/mappings/t#m1")
            (Literal "0.95" (Some (NS.XSD "double")) None) _).
  vm_compute. do 7 right. left. reflexivity.
Defined.

(** ** The sources of the mapping set *)

Section SourceFacts.

Variable B : Builtins.
Variable g_in : Graph.
Variable v : Preds.
Variable iri : Term.

Lemma aln_body_sources (st : Locals) (aln : Term) :
  let st' := aln_body B g_in v iri st aln in
  subj_source st'
  = (if truthy_opt B (value g_in aln (onto1_pred v)) && is_none (subj_source st)
     then value g_in aln (onto1_pred v) else subj_source st)
  /\ obj_source st'
     = (if truthy_opt B (value g_in aln (onto2_pred v)) && is_none (obj_source st)
        then value g_in aln (onto2_pred v) else obj_source st).
Proof.
  unfold aln_body.
  match goal with
  | |- context [fold_left (cell_body _ _ _ _) ?cs ?s0] =>
      destruct (cell_loop B g_in v iri cs s0) as (_ & _ & Hs & Ho)
  end.
  cbv zeta. rewrite Hs, Ho. split; reflexivity.
Qed.

Lemma aln_loop_sources (alns : list Term) (st : Locals) :
  let st' := fold_left (aln_body B g_in v iri) alns st in
  subj_source st'
  = match subj_source st with
    | Some s => Some s
    | None => first_truthy B (map (fun aln => value g_in aln (onto1_pred v)) alns)
    end
  /\ obj_source st'
     = match obj_source st with
       | Some s => Some s
       | None => first_truthy B (map (fun aln => value g_in aln (onto2_pred v)) alns)
       end.
Proof.
  revert st. induction alns as [| a alns IH]; intros st.
  - simpl. unfold first_truthy. simpl.
    destruct (subj_source st), (obj_source st); split; reflexivity.
  - cbn [fold_left map]. destruct (IH (aln_body B g_in v iri st a)) as [Hs Ho].
    cbv zeta in *. rewrite Hs, Ho.
    destruct (aln_body_sources st a) as [Hs1 Ho1]. cbv zeta in *.
    rewrite Hs1, Ho1. unfold first_truthy. cbn [find].
    split.
    + destruct (subj_source st) as [s |].
      * cbn [is_none]. rewrite andb_false_r. reflexivity.
      * cbn [is_none]. rewrite andb_true_r.
        destruct (value g_in a (onto1_pred v)) as [x |]; cbn [truthy_opt];
          [destruct (truthy B x) |]; reflexivity.
    + destruct (obj_source st) as [s |].
      * cbn [is_none]. rewrite andb_false_r. reflexivity.
      * cbn [is_none]. rewrite andb_true_r.
        destruct (value g_in a (onto2_pred v)) as [x |]; cbn [truthy_opt];
          [destruct (truthy B x) |]; reflexivity.
Qed.

(** X13. The mapping set gets at most one [sssom:subject_source] and one
    [sssom:object_source]: the first onto1 value, respectively onto2 value,
    with a true truth value among the alignments in the order of the loop. *)
Theorem sources_are_first_values (o : Term) :
  (In (iri, NS.SSSOM "subject_source", o) (final_graph B g_in v iri)
   <-> first_truthy B (map (fun aln => value g_in aln (onto1_pred v))
                           (alignments_of g_in v)) = Some o)
  /\ (In (iri, NS.SSSOM "object_source", o) (final_graph B g_in v iri)
      <-> first_truthy B (map (fun aln => value g_in aln (onto2_pred v))
                              (alignments_of g_in v)) = Some o).
Proof.
  assert (Hsrc := aln_loop_sources (alignments_of g_in v)
                    (mkLocals
                       (graph_add
                          (graph_add [] (iri, RDF_type, NS.OWL "Ontology"))
                          (iri, RDF_type, NS.SSSOM "MappingSet")) [] None None)).
  cbv zeta in Hsrc. cbn [subj_source obj_source] in Hsrc.
  fold (after_loops B g_in v iri) in Hsrc. destruct Hsrc as [Hs Ho].
  assert (Hcell : forall p x,
             In p [ NS.SSSOM "subject_source"; NS.SSSOM "object_source" ] ->
             ~ In (iri, p, x) (g_out (after_loops B g_in v iri))).
  { intros p x Hp Hin. rewrite after_loops_graph, fold_graph_add_In, in_flat_map in Hin.
    destruct Hin as [[H | [H | []]] | (cell & _ & H)].
    - injection H as <-. simpl in Hp. intuition discriminate.
    - injection H as <-. simpl in Hp. intuition discriminate.
    - unfold adds_of in H.
      destruct (entities_of g_in v cell) as [[subj obj] |]; [| destruct H].
      apply cell_adds_shape in H. destruct H as [_ H]. cbn [fst snd] in H.
      simpl in Hp, H.
      destruct Hp as [<- | [<- | []]]; intuition discriminate. }
  split; rewrite final_graph_In; cbn [fst snd]; [rewrite <- Hs | rewrite <- Ho];
    split.
  - intros [H | [[H _] | [[_ H] | [_ H]]]]; try discriminate H; [| congruence].
    exfalso. apply (Hcell _ _ (or_introl eq_refl) H).
  - intros H. right. left. now split.
  - intros [H | [[_ H] | [[H _] | [_ H]]]]; try discriminate H; [| congruence].
    exfalso. apply (Hcell _ _ (or_intror (or_introl eq_refl)) H).
  - intros H. right. right. left. now split.
Qed.

End SourceFacts.

(** ** Stems and output names *)

Lemma rfind_none (c : ascii) (s : string) :
  PyStr.contains c s = false -> PyStr.rfind c s = None.
Proof.
  induction s as [| x s IH]; simpl; [reflexivity |].
  destruct (Ascii.eqb x c); [discriminate |]. intros H. now rewrite IH.
Qed.

Lemma rfind_last (c : ascii) (a b : string) :
  PyStr.contains c b = false ->
  PyStr.rfind c (a ++ String c b) = Some (String.length a).
Proof.
  intros Hb. induction a as [| x a IH]; simpl.
  - now rewrite (rfind_none _ _ Hb), Ascii.eqb_refl.
  - now rewrite IH.
Qed.

Lemma substring_prefix (a b : string) :
  substring 0 (String.length a) (a ++ b) = a.
Proof.
  induction a as [| x a IH]; simpl; [now destruct b | now rewrite IH].
Qed.

Lemma length_append (a b : string) :
  String.length (a ++ b) = String.length a + String.length b.
Proof. induction a as [| x a IH]; simpl; [reflexivity | now rewrite IH]. Qed.

(** X14. A name that the glob [*.ttl] matches is [base.ttl]; its stem is
    [base] (the whole name when [base] is empty), and the name of its output
    file, [<stem>_sssom.ttl], matches the glob again and is another name. *)
Theorem ttl_names_and_stems (fname : string) :
  PyStr.endswith fname ".ttl" = true ->
  exists base,
    fname = base ++ ".ttl"
    /\ PyPath.stem fname = (if PyStr.nonempty base then base else ".ttl")
    /\ PyStr.endswith (PyPath.stem fname ++ "_sssom.ttl") ".ttl" = true
    /\ PyPath.stem fname ++ "_sssom.ttl" <> fname.
Proof.
  intros H. apply endswith_iff in H. destruct H as (base & ->). exists base.
  assert (Hstem : PyPath.stem (base ++ ".ttl")
                  = if PyStr.nonempty base then base else ".ttl").
  { unfold PyPath.stem. change (base ++ ".ttl") with (base ++ String "." "ttl").
    rewrite rfind_last by reflexivity.
    destruct base as [| x base]; [reflexivity |].
    assert (H2 : Nat.ltb (String.length (String x base))
                   (String.length (String x base ++ String "." "ttl") - 1) = true).
    { apply Nat.ltb_lt. rewrite length_append. simpl. lia. }
    rewrite H2. cbn [PyStr.nonempty String.length Nat.ltb Nat.leb andb].
    apply (substring_prefix (String x base)). }
  split; [reflexivity |]. split; [exact Hstem |]. split.
  - apply endswith_iff. exists (PyPath.stem (base ++ ".ttl") ++ "_sssom").
    now rewrite append_assoc.
  - rewrite Hstem. intros Heq. apply (f_equal String.length) in Heq.
    destruct base; cbn [PyStr.nonempty] in Heq; [discriminate Heq |].
    rewrite !length_append in Heq. simpl in Heq. lia.
Qed.

Lemma ttl_names_and_stems_witness :
  exists base,
    "conf.cmt-ekaw.ttl" = base ++ ".ttl"
    /\ PyPath.stem "conf.cmt-ekaw.ttl"
       = (if PyStr.nonempty base then base else ".ttl")
    /\ PyStr.endswith (PyPath.stem "conf.cmt-ekaw.ttl" ++ "_sssom.ttl") ".ttl" = true
    /\ PyPath.stem "conf.cmt-ekaw.ttl" ++ "_sssom.ttl" <> "conf.cmt-ekaw.ttl".
Proof.
  exact (ttl_names_and_stems "conf.cmt-ekaw.ttl" eq_refl).
Defined.

(** ** The order of the batch *)

Lemma ascii_compare_N (a b : ascii) :
  Ascii.compare a b = N.compare (N_of_ascii a) (N_of_ascii b).
Proof. reflexivity. Qed.

Lemma string_compare_refl (s : string) : String.compare s s = Eq.
Proof.
  induction s as [| c s IH]; simpl; [reflexivity |].
  rewrite ascii_compare_N, N.compare_refl. exact IH.
Qed.

Lemma string_compare_lt_trans (a b c : string) :
  String.compare a b = Lt -> String.compare b c = Lt -> String.compare a c = Lt.
Proof.
  revert b c. induction a as [| x a IH]; intros [| y b] [| z c]; simpl;
    try congruence.
  rewrite !ascii_compare_N.
  destruct (N.compare_spec (N_of_ascii x) (N_of_ascii y)) as [Hxy | Hxy | Hxy];
    destruct (N.compare_spec (N_of_ascii y) (N_of_ascii z)) as [Hyz | Hyz | Hyz];
    destruct (N.compare_spec (N_of_ascii x) (N_of_ascii z)) as [Hxz | Hxz | Hxz];
    try congruence; try lia.
  apply IH.
Qed.

Lemma leb_cases (a b : string) :
  String.leb a b = true <-> String.compare a b = Lt \/ a = b.
Proof.
  unfold String.leb. split.
  - destruct (String.compare a b) eqn:E; try discriminate; [| now left].
    right. now apply String.compare_eq_iff.
  - intros [-> | ->]; [reflexivity | now rewrite string_compare_refl].
Qed.

Lemma leb_trans (a b c : string) :
  String.leb a b = true -> String.leb b c = true -> String.leb a c = true.
Proof.
  rewrite !leb_cases. intros [H1 | ->] [H2 | ->]; auto.
  left. eapply string_compare_lt_trans; eassumption.
Qed.

Lemma insert_sorted_perm (f : DirEntry) (l : list DirEntry) :
  Permutation (f :: l) (insert_sorted f l).
Proof.
  induction l as [| h t IH]; simpl; [reflexivity |].
  destruct (String.leb (fst f) (fst h)); [reflexivity |].
  rewrite perm_swap. now apply perm_skip.
Qed.

Lemma sorted_perm (l : list DirEntry) : Permutation l (sorted l).
Proof.
  induction l as [| f l IH]; simpl; [constructor |].
  unfold sorted in *. simpl. rewrite <- insert_sorted_perm. now apply perm_skip.
Qed.

Lemma insert_sorted_strongly (f : DirEntry) (l : list DirEntry) :
  StronglySorted name_le l -> StronglySorted name_le (insert_sorted f l).
Proof.
  induction 1 as [| h t Ht IH Hall]; simpl; [repeat constructor |].
  destruct (String.leb (fst f) (fst h)) eqn:E.
  - constructor; [now constructor |]. constructor; [exact E |].
    eapply Forall_impl; [| exact Hall]. intros x Hx. unfold name_le in *.
    eapply leb_trans; eassumption.
  - constructor; [exact IH |].
    assert (Hhf : name_le h f).
    { unfold name_le. destruct (String.leb_total (fst f) (fst h)); congruence. }
    eapply Permutation_Forall; [apply insert_sorted_perm |].
    now constructor.
Qed.

Lemma sorted_in_order (l : list DirEntry) :
  Permutation l (sorted l) /\ StronglySorted name_le (sorted l).
Proof.
  split; [apply sorted_perm |].
  induction l as [| f l IH]; [constructor |].
  unfold sorted in *. simpl. now apply insert_sorted_strongly.
Qed.

(** X15. The batch takes the [.ttl] files in the order of their names: the
    sorted list is a permutation of the listing in non-decreasing order. *)
Theorem sorted_is_name_order (l : list DirEntry) :
  Permutation l (sorted l) /\ StronglySorted name_le (sorted l).
Proof. exact (sorted_in_order l). Qed.

Lemma strongly_sorted_unique (l1 l2 : list DirEntry) :
  NoDup (map fst l1) -> Permutation l1 l2 ->
  StronglySorted name_le l1 -> StronglySorted name_le l2 -> l1 = l2.
Proof.
  revert l2. induction l1 as [| a l1 IH]; intros l2 Hnd Hp H1 H2.
  - apply Permutation_nil in Hp. now subst.
  - destruct l2 as [| b l2]; [apply Permutation_sym, Permutation_nil in Hp; discriminate |].
    inversion H1 as [| ? ? Hs1 Ha]; subst. inversion H2 as [| ? ? Hs2 Hb]; subst.
    assert (Hab : a = b).
    { assert (Hina : In a (b :: l2)) by (eapply Permutation_in; [exact Hp | now left]).
      assert (Hinb : In b (a :: l1))
        by (eapply Permutation_in; [apply Permutation_sym; exact Hp | now left]).
      destruct Hina as [-> | Hina]; [reflexivity |].
      destruct Hinb as [-> | Hinb]; [reflexivity |].
      rewrite Forall_forall in Ha, Hb.
      assert (Hn : fst a = fst b)
        by (apply String.leb_antisym; [apply (Ha b Hinb) | apply (Hb a Hina)]).
      inversion Hnd as [| ? ? Hnotin _]; subst. exfalso. apply Hnotin.
      rewrite Hn. now apply in_map. }
    subst b. f_equal. apply IH; try assumption.
    + now inversion Hnd.
    + eapply Permutation_cons_inv; exact Hp.
Qed.

Lemma glob_ttl_perm (l1 l2 : list DirEntry) :
  Permutation l1 l2 -> Permutation (glob_ttl l1) (glob_ttl l2).
Proof.
  unfold glob_ttl. induction 1; simpl.
  - constructor.
  - destruct (PyStr.endswith (fst x) ".ttl"); [now constructor | assumption].
  - destruct (PyStr.endswith (fst x) ".ttl"), (PyStr.endswith (fst y) ".ttl");
      try reflexivity; [apply perm_swap].
  - etransitivity; eassumption.
Qed.

Lemma glob_ttl_names (l : list DirEntry) :
  NoDup (map fst l) -> NoDup (map fst (glob_ttl l)).
Proof.
  unfold glob_ttl. induction l as [| x l IH]; simpl; [constructor |].
  intros Hnd. inversion Hnd as [| ? ? Hnotin Hrest]; subst.
  destruct (PyStr.endswith (fst x) ".ttl"); [| now apply IH].
  simpl. constructor; [| now apply IH].
  intros Hin. apply Hnotin. apply in_map_iff in Hin.
  destruct Hin as (y & Hy & Hin). apply filter_In in Hin.
  apply in_map_iff. exists y. now split.
Qed.

(** X16. The run does not depend on the order in which the directory lists
    its entries. *)
Theorem main_ignores_listing_order
  (B : Builtins) (input_dir : string) (out_dir_arg : option string)
  (l1 l2 : list DirEntry) (w : World) :
  NoDup (map fst l1) ->
  Permutation l1 l2 ->
  main B input_dir out_dir_arg (Some l1) w
  = main B input_dir out_dir_arg (Some l2) w.
Proof.
  intros Hnd Hp. unfold main. f_equal.
  apply strongly_sorted_unique.
  - eapply Permutation_NoDup; [| apply glob_ttl_names; exact Hnd].
    apply Permutation_map, sorted_perm.
  - rewrite <- (sorted_perm (glob_ttl l1)), <- (sorted_perm (glob_ttl l2)).
    now apply glob_ttl_perm.
  - apply sorted_in_order.
  - apply sorted_in_order.
Qed.

Lemma main_ignores_listing_order_witness :
  main Sample.builtins "in" None (Some SampleDir.entries) Sample.w0
  = main Sample.builtins "in" None
      (Some [ ("a_malformed.ttl", None); ("b_valid.ttl", Some Sample.one_cell) ])
      Sample.w0.
Proof.
  refine (main_ignores_listing_order Sample.builtins "in" None
            SampleDir.entries
            [ ("a_malformed.ttl", None); ("b_valid.ttl", Some Sample.one_cell) ]
            Sample.w0 _ (perm_swap _ _ _)).
  repeat constructor; simpl; intuition discriminate.
Defined.

Lemma for_each_ttl_all_parse
  (B : Builtins) (input_dir out_dir : string) (paths : list DirEntry) (w : World) :
  Forall (fun e => snd e <> None) paths ->
  fst (for_each_ttl B input_dir out_dir paths w) = Returned
  /\ List.length (console (snd (for_each_ttl B input_dir out_dir paths w)))
     = List.length (console w) + 2 * List.length paths.
Proof.
  intros Hall. revert w. induction Hall as [| [n c] paths Hc _ IH]; intros w.
  - simpl. split; [reflexivity | lia].
  - simpl in Hc. destruct c as [g |]; [| congruence].
    cbn [for_each_ttl].
    pose proof (convert_parsed_outcome B (mkPath input_dir n)
                  (mkPath out_dir (PyPath.stem n ++ "_sssom.ttl")) g w)
      as [Hr (line & Hl)].
    destruct (convert_alignment_file B _ _ w) as [[| e] w']; [| discriminate Hr].
    cbn [snd] in Hl. destruct (IH w') as [H1 H2]. split; [exact H1 |].
    rewrite H2, Hl, length_app. simpl. lia.
Qed.

(** X17. When every [.ttl] file of the directory parses, the run returns
    and prints two lines for each of them; files that are skipped do not
    stop it. *)
Theorem batch_of_parsable_files
  (B : Builtins) (input_dir : string) (out_dir_arg : option string)
  (entries : list DirEntry) (w : World) :
  Forall (fun e => snd e <> None) (glob_ttl entries) ->
  let r := main B input_dir out_dir_arg (Some entries) w in
  fst r = Returned
  /\ List.length (console (snd r))
     = List.length (console w) + 2 * List.length (glob_ttl entries).
Proof.
  intros Hall r. unfold r, main.
  assert (Hs : Forall (fun e : DirEntry => snd e <> None) (sorted (glob_ttl entries))).
  { eapply Permutation_Forall; [apply sorted_perm | exact Hall]. }
  rewrite (Permutation_length (sorted_perm (glob_ttl entries))).
  now apply for_each_ttl_all_parse.
Qed.

Lemma batch_of_parsable_files_witness :
  fst (main Sample.builtins "in" None
         (Some [ ("b.ttl", Some Sample.one_cell); ("notes.txt", None);
                 ("a.ttl", Some Sample.header) ]) Sample.w0) = Returned
  /\ List.length
       (console (snd (main Sample.builtins "in" None
         (Some [ ("b.ttl", Some Sample.one_cell); ("notes.txt", None);
                 ("a.ttl", Some Sample.header) ]) Sample.w0)))
     = List.length (console Sample.w0)
       + 2 * List.length (glob_ttl [ ("b.ttl", Some Sample.one_cell);
                                     ("notes.txt", None);
                                     ("a.ttl", Some Sample.header) ]).
Proof.
  refine (batch_of_parsable_files Sample.builtins "in" None
            [ ("b.ttl", Some Sample.one_cell); ("notes.txt", None);
              ("a.ttl", Some Sample.header) ] Sample.w0 _).
  vm_compute. repeat constructor; discriminate.
Defined.

(** ** rdfxml2turtle.py *)

(** X19. The folder converter never raises; it writes one Turtle file for
    each [.rdf] entry that parses, in the order of the listing, whatever
    the other entries do, and nothing for the entries that fail. *)
Theorem convert_folder_writes_parsed
  (folder : string) (entries : list RdfXml2Turtle.Entry) (w : World) :
  let rdf_files := filter (fun e => PyStr.endswith (fst e) ".rdf") entries in
  let r := RdfXml2Turtle.convert_folder folder entries w in
  fst r = Returned
  /\ written (snd r) = (written w ++ converted folder rdf_files)%list
  /\ List.length (console (snd r))
     = List.length (console w) + Nat.max 1 (List.length rdf_files).
Proof.
  intros rdf_files r. unfold r, RdfXml2Turtle.convert_folder.
  fold rdf_files. clearbody rdf_files. clear r.
  assert (Hfold : forall fs w0,
             let w1 := fold_left
                         (fun w1 f => RdfXml2Turtle.convert_one folder f w1) fs w0 in
             written w1 = (written w0 ++ converted folder fs)%list
             /\ List.length (console w1)
                = List.length (console w0) + List.length fs).
  { induction fs as [| f fs IH]; intros w0; cbv zeta.
    - simpl. rewrite app_nil_r. split; [reflexivity | lia].
    - cbn [fold_left]. destruct (IH (RdfXml2Turtle.convert_one folder f w0)) as [Hw Hc].
      cbv zeta in Hw, Hc. rewrite Hw, Hc.
      unfold converted. cbn [flat_map]. unfold RdfXml2Turtle.convert_one.
      destruct (snd f) as [e | g]; cbn [written console print serialize];
        rewrite ?length_app, <- ?app_assoc; simpl; split; (reflexivity || lia). }
  destruct rdf_files as [| f fs].
  - simpl. rewrite app_nil_r, length_app. simpl. repeat split; (reflexivity || lia).
  - destruct (Hfold (f :: fs) w) as [Hw Hc]. cbv zeta in Hw, Hc.
    split; [reflexivity |]. split; [exact Hw |].
    cbn [snd]. rewrite Hc. reflexivity.
Qed.

Lemma stem_strips_last_suffix (base ext : string) :
  base <> "" -> ext <> "" -> PyStr.contains "." ext = false ->
  PyPath.stem (base ++ "." ++ ext) = base.
Proof.
  intros Hb He Hdot. unfold PyPath.stem.
  change (base ++ "." ++ ext) with (base ++ String "." ext).
  rewrite rfind_last by assumption.
  destruct base as [| x base]; [contradiction |].
  assert (H2 : Nat.ltb (String.length (String x base))
                 (String.length (String x base ++ String "." ext) - 1) = true).
  { apply Nat.ltb_lt. rewrite length_append.
    destruct ext; [contradiction | simpl; lia]. }
  rewrite H2. cbn [String.length Nat.ltb Nat.leb andb].
  apply (substring_prefix (String x base)).
Qed.

(** X20. For an entry [base.rdf] the folder converter writes [base.ttl]. *)
Theorem rdf_output_name (base : string) :
  base <> "" ->
  PyStr.endswith (base ++ ".rdf") ".rdf" = true
  /\ RdfXml2Turtle.with_suffix_ttl (base ++ ".rdf") = base ++ ".ttl".
Proof.
  intros Hb. split.
  - apply endswith_iff. now exists base.
  - unfold RdfXml2Turtle.with_suffix_ttl.
    change (base ++ ".rdf") with (base ++ "." ++ "rdf").
    now rewrite stem_strips_last_suffix by (assumption || discriminate || reflexivity).
Qed.

Lemma rdf_output_name_witness :
  PyStr.endswith ("animl" ++ ".rdf") ".rdf" = true
  /\ RdfXml2Turtle.with_suffix_ttl ("animl" ++ ".rdf") = "animl" ++ ".ttl".
Proof.
  exact (rdf_output_name "animl" (fun H => match H with end)).
Defined.

(** ** The role suffixes, counted *)

Lemma all_equal_short (l : list string) :
  NoDup l -> (forall a b, In a l -> In b l -> a = b) -> List.length l <= 1.
Proof.
  intros Hnd Heq. destruct l as [| a [| b l]]; simpl; try lia.
  exfalso. inversion Hnd as [| ? ? Hnotin _]; subst. apply Hnotin.
  rewrite (Heq a b); simpl; tauto.
Qed.

(** X4. A local name ends with at most one of the eight role suffixes, so
    the order of the [elif] chain of the discovery does not matter. *)
Theorem at_most_one_role_suffix (s : string) :
  List.length (filter (PyStr.endswith s) role_suffixes) <= 1.
Proof.
  apply all_equal_short.
  - apply NoDup_filter. unfold role_suffixes.
    repeat constructor; simpl; intuition discriminate.
  - intros a b Ha Hb. apply filter_In in Ha, Hb.
    destruct Ha as [Ha Ea], Hb as [Hb Eb].
    now apply (role_suffixes_exclusive s).
Qed.

(** ** The batch and a file that does not parse *)

Lemma for_each_ttl_stops_at_parse_error_witness :
  for_each_ttl Sample.builtins "in" "out"
    ([ ("a.ttl", Some Sample.header) ]
     ++ ("b.ttl", None) :: [ ("c.ttl", Some Sample.one_cell) ])%list Sample.w0
  = (Raised ParseError,
     print (processing_line (mkPath "in" "b.ttl")
              (mkPath "out" (PyPath.stem "b.ttl" ++ "_sssom.ttl")))
           (snd (for_each_ttl Sample.builtins "in" "out"
                   [ ("a.ttl", Some Sample.header) ] Sample.w0))).
Proof.
  refine (for_each_ttl_stops_at_parse_error Sample.builtins "in" "out"
            [ ("a.ttl", Some Sample.header) ]
            [ ("c.ttl", Some Sample.one_cell) ] "b.ttl" Sample.w0 _).
  repeat constructor. discriminate.
Defined.

(** * The review tool *)

(** ** review_alignment and set_reviewer_id *)

Lemma lookup_decision (k : string) :
  (Review.lookup Review.decision_text k = None <-> ~ In k [ "y"; "n"; "r"; "" ])
  /\ (forall text, Review.lookup Review.decision_text k = Some text ->
                   In text decisions).
Proof.
  unfold Review.decision_text, decisions. cbn [Review.lookup In].
  destruct (String.eqb_spec "y" k) as [<- | Hy].
  { split; [split; [discriminate | intros H; exfalso; apply H; tauto] |].
    intros text [= <-]. tauto. }
  destruct (String.eqb_spec "n" k) as [<- | Hn].
  { split; [split; [discriminate | intros H; exfalso; apply H; tauto] |].
    intros text [= <-]. tauto. }
  destruct (String.eqb_spec "r" k) as [<- | Hr].
  { split; [split; [discriminate | intros H; exfalso; apply H; tauto] |].
    intros text [= <-]. tauto. }
  destruct (String.eqb_spec "" k) as [<- | He].
  { split; [split; [discriminate | intros H; exfalso; apply H; tauto] |].
    intros text [= <-]. tauto. }
  split; [split; [intros _; tauto | reflexivity] | discriminate].
Qed.

(** X21. [review_alignment] returns for the answers y, n, r and the empty
    line only, with one of the four decisions; any other answer raises
    [KeyError] before the justification is asked for. *)
Theorem review_alignment_answers
  (B : Builtins) (decision : string) (rest : list string)
  (shown : list (Review.Out B)) :
  let q1 := Review.Prompt B
    "Is the above refinement acceptable? Yes(y), No(n), Needs Refinement(r): " in
  let r := Review.review_alignment B (Review.mkTty B (decision :: rest) shown) in
  (In decision [ "y"; "n"; "r"; "" ] \/
   r = (Review.Err (Review.KeyError decision),
        Review.mkTty B rest (shown ++ [ q1 ])%list))
  /\ (forall text comment t',
        r = (Review.Ok (text, comment), t') ->
        In decision [ "y"; "n"; "r"; "" ] /\ In text decisions
        /\ rest = (comment :: Review.stdin B t')%list).
Proof.
  intros q1 r. unfold r, Review.review_alignment, Review.bind, Review.input.
  cbn [Review.stdin Review.stdout].
  destruct (lookup_decision decision) as [Hnone Hsome].
  destruct (Review.lookup Review.decision_text decision) as [text |] eqn:E.
  - assert (Hin : In decision [ "y"; "n"; "r"; "" ]).
    { destruct (in_dec string_dec decision [ "y"; "n"; "r"; "" ]) as [H | H];
        [exact H |]. apply Hnone in H. discriminate H. }
    split; [now left |]. intros text' comment t'.
    destruct rest as [| c rest']; [discriminate |].
    unfold Review.ret. intros [= <- <- <-]. cbn [Review.stdin].
    split; [exact Hin |]. split; [now apply Hsome | reflexivity].
  - split; [right; reflexivity | discriminate].
Qed.

Lemma set_reviewer_id_help
  (B : Builtins) (k : nat) (lines : list string) (shown : list (Review.Out B)) :
  Review.set_reviewer_id_loop B (repeat "h" k ++ lines)%list shown
  = Review.set_reviewer_id_loop B lines (shown ++ help_rounds B k)%list.
Proof.
  revert shown. induction k as [| k IH]; intros shown.
  - simpl. now rewrite app_nil_r.
  - cbn [repeat app Review.set_reviewer_id_loop]. cbn [String.eqb].
    change (String.eqb "h" "h") with true. cbn iota.
    rewrite IH. f_equal. rewrite <- !app_assoc. reflexivity.
Qed.

(** X22. After any number of [h] answers, each met with the help text,
    the next answer decides: an empty line, Y or y makes the id
    [orcid:<next line>], any other answer makes it the next line as typed. *)
Theorem set_reviewer_id_after_help
  (B : Builtins) (k : nat) (answer x : string) (rest : list string)
  (shown : list (Review.Out B)) :
  answer <> "h" ->
  let orcid := existsb (String.eqb answer) [ ""; "Y"; "y" ] in
  Review.set_reviewer_id B
    (Review.mkTty B (repeat "h" k ++ answer :: x :: rest)%list shown)
  = (Review.Ok (if orcid then "orcid:" ++ x else x),
     Review.mkTty B rest
       (shown ++ help_rounds B k
        ++ [ Review.Prompt B
               "Are you using an ORCID as your id? Y/n (type h for help): ";
             Review.Prompt B
               (if orcid then "Enter your ORCID: "
                else "Enter your URI (include namespace or prefix): ") ])%list).
Proof.
  intros Hne orcid. unfold Review.set_reviewer_id. cbn [Review.stdin Review.stdout].
  rewrite set_reviewer_id_help. cbn [Review.set_reviewer_id_loop].
  destruct (String.eqb_spec answer "h") as [-> | _]; [contradiction |].
  fold orcid. unfold Review.bind, Review.input, Review.ret.
  cbn [Review.stdin Review.stdout].
  destruct orcid; rewrite <- !app_assoc; reflexivity.
Qed.

Lemma set_reviewer_id_after_help_witness :
  Review.set_reviewer_id Sample.builtins
    (Review.mkTty Sample.builtins
       (repeat "h" 2 ++ "Y" :: "0000-0002-1825-0097" :: [ "Ada" ])%list [])
  = (Review.Ok "orcid:0000-0002-1825-0097",
     Review.mkTty Sample.builtins [ "Ada" ]
       ([] ++ help_rounds Sample.builtins 2
        ++ [ Review.Prompt Sample.builtins
               "Are you using an ORCID as your id? Y/n (type h for help): ";
             Review.Prompt Sample.builtins "Enter your ORCID: " ])%list).
Proof.
  exact (set_reviewer_id_after_help Sample.builtins 2 "Y" "0000-0002-1825-0097"
           [ "Ada" ] [] (fun H => match H with end)).
Defined.

(** ** process_alignments *)

Section ReviewFacts.

Variable B : Builtins.
Variables (uid uname : string).

Lemma value_graph_add (g : Graph) (s p' o a p : Term) :
  p <> p' ->
  value (graph_add g (s, p', o)) a (Some p) = value g a (Some p).
Proof.
  intros Hne. unfold graph_add.
  destruct (in_dec Triple_eq_dec (s, p', o) g); [reflexivity |].
  unfold value, objects, triples. rewrite filter_app. cbn [filter fst snd matches].
  destruct (Term_eqb p' p) eqn:E.
  - apply Term_eqb_eq in E. congruence.
  - rewrite andb_false_r. cbn [andb]. now rewrite app_nil_r.
Qed.

Lemma add_review_agrees (g0 g : Graph) (axiom : Term) (d c : string) :
  agrees g0 g -> agrees g0 (Review.add_review g axiom uid uname d c).
Proof.
  intros H a p Hp. unfold Review.add_review.
  rewrite !value_graph_add; [now apply H | | | |];
    simpl in Hp; intuition (subst; discriminate).
Qed.

Lemma add_review_In (g : Graph) (axiom : Term) (d c : string) (tr : Triple) :
  In tr (Review.add_review g axiom uid uname d c)
  <-> In tr g
      \/ tr = (axiom, NS.SSSOM "reviewer_id", Literal uid None None)
      \/ tr = (axiom, NS.SSSOM "reviewer_label", Literal uname None None)
      \/ tr = (axiom, NS.SSSOM "reviewer_decision", Literal d None None)
      \/ tr = (axiom, NS.SSSOM "reviewer_justification", Literal c None None).
Proof.
  unfold Review.add_review. rewrite !graph_add_In. tauto.
Qed.

Lemma review_alignment_ok (t t' : Review.Tty B) (text comment : string) :
  Review.review_alignment B t = (Review.Ok (text, comment), t') ->
  In text decisions
  /\ exists decision, Review.stdin B t = decision :: comment :: Review.stdin B t'.
Proof.
  destruct t as [[| decision rest] shown].
  - discriminate.
  - intros H.
    destruct (review_alignment_answers B decision rest shown) as [_ Hok].
    cbv zeta in Hok. destruct (Hok text comment t' H) as (_ & Ht & Hr).
    split; [exact Ht |]. exists decision. cbn [Review.stdin]. now rewrite Hr.
Qed.

(** One turn of the second loop. *)
Lemma review_loop_cons (total : nat) (axiom : Term) (rest : list Term)
      (g : Graph) (count : nat) (t : Review.Tty B) :
  Review.review_loop B total uid uname (axiom :: rest) g count t
  = let t1 := Review.mkTty B (Review.stdin B t)
                (Review.stdout B t
                 ++ [ Review.Line B ("Alignment " ++ PyStr.of_Z (Z.of_nat count)
                                     ++ " of " ++ PyStr.of_Z (Z.of_nat total));
                      Review.Line B "" ])%list in
    match value g axiom (Some (NS.SSSOM "subject_id")),
          value g axiom (Some (NS.SSSOM "object_id")) with
    | Some subj, Some obj =>
        match Review.alignment_of B g axiom subj obj with
        | Review.Err e => (Review.Err e, t1)
        | Review.Ok al =>
            match Review.review_alignment B
                    (Review.mkTty B (Review.stdin B t)
                       (Review.stdout B t1 ++ [ Review.Pretty B al ])%list) with
            | (Review.Ok dc, t2) =>
                Review.review_loop B total uid uname rest
                  (Review.add_review g axiom uid uname (fst dc) (snd dc)) (S count)
                  (Review.mkTty B (Review.stdin B t2)
                     (Review.stdout B t2
                      ++ [ Review.Line B ""; Review.Line B Review.rule_line;
                           Review.Line B "" ])%list)
            | (Review.Err e, t2) => (Review.Err e, t2)
            end
        end
    | _, _ => Review.review_loop B total uid uname rest g (S count) t1
    end.
Proof.
  cbn [Review.review_loop]. unfold Review.bind at 1 2.
  unfold Review.print at 1 2. cbn [Review.stdin Review.stdout].
  rewrite <- app_assoc. cbn [app].
  destruct (value g axiom (Some (NS.SSSOM "subject_id"))) as [subj |];
    [| reflexivity].
  destruct (value g axiom (Some (NS.SSSOM "object_id"))) as [obj |];
    [| reflexivity].
  destruct (Review.alignment_of B g axiom subj obj) as [al | e]; [| reflexivity].
  unfold Review.bind at 1. unfold Review.pprint at 1.
  cbn [Review.stdin Review.stdout].
  unfold Review.bind at 1.
  destruct (Review.review_alignment B _) as [[dc | e] t2]; [| reflexivity].
  unfold Review.bind at 1 2 3. unfold Review.print at 1 2 3.
  cbn [Review.stdin Review.stdout]. rewrite <- !app_assoc. reflexivity.
Qed.

Lemma reviewable_agrees (g0 g : Graph) (axiom : Term) :
  agrees g0 g -> reviewable g axiom = reviewable g0 axiom.
Proof.
  intros H. unfold reviewable. rewrite !H by (simpl; tauto). reflexivity.
Qed.

(** What a run of the second loop that returns has done. *)
Lemma review_loop_returns (total : nat) (g0 : Graph) :
  forall (axioms : list Term) (g : Graph) (count : nat)
         (t t' : Review.Tty B) (g' : Graph),
    agrees g0 g ->
    Review.review_loop B total uid uname axioms g count t = (Review.Ok g', t') ->
    agrees g0 g'
    /\ (forall tr, In tr g -> In tr g')
    /\ (forall tr, In tr g' ->
          In tr g \/ exists a, In a axioms /\ reviewable g0 a = true
                               /\ review_triple uid uname a tr)
    /\ (forall a, In a axioms -> reviewable g0 a = true -> reviewed uid uname g' a)
    /\ List.length (Review.stdin B t)
       = 2 * List.length (filter (reviewable g0) axioms)
         + List.length (Review.stdin B t').
Proof.
  induction axioms as [| axiom rest IH]; intros g count t t' g' Hag Hrun.
  - cbn in Hrun. unfold Review.ret in Hrun. injection Hrun as <- <-.
    split; [exact Hag |]. split; [tauto |]. split; [tauto |].
    split; [intros a [] | reflexivity].
  - rewrite review_loop_cons in Hrun. cbv zeta in Hrun.
    pose proof (reviewable_agrees g0 g axiom Hag) as Hrev.
    unfold reviewable in Hrev at 1.
    cbn [filter].
    destruct (value g axiom (Some (NS.SSSOM "subject_id"))) as [subj |] eqn:Es;
      [destruct (value g axiom (Some (NS.SSSOM "object_id"))) as [obj |] eqn:Eo |].
    + cbn in Hrev. rewrite <- Hrev.
      destruct (Review.alignment_of B g axiom subj obj) as [al | e];
        [| discriminate Hrun].
      destruct (Review.review_alignment B _) as [[[d c] | e] t2] eqn:Era;
        [| discriminate Hrun].
      apply review_alignment_ok in Era. destruct Era as (Hd & decision & Hin).
      cbn [Review.stdin] in Hin. cbn [fst snd] in Hrun.
      apply IH in Hrun; [| now apply add_review_agrees].
      destruct Hrun as (H1 & H2 & H3 & H4 & H5). cbn [Review.stdin] in H5.
      split; [exact H1 |]. split; [| split; [| split]].
      * intros tr Htr. apply H2, add_review_In. now left.
      * intros tr Htr. apply H3 in Htr. destruct Htr as [Htr | (a & Ha & Hr & Ht)].
        -- apply add_review_In in Htr.
           destruct Htr as [Htr | Htr]; [now left | right].
           exists axiom. split; [now left |]. split; [now symmetry |].
           unfold review_triple.
           destruct Htr as [-> | [-> | [-> | ->]]]; eauto 6.
        -- right. exists a. split; [now right | now split].
      * intros a [<- | Ha] Hr; [| now apply H4].
        unfold reviewed. repeat split.
        -- apply H2, add_review_In. tauto.
        -- apply H2, add_review_In. tauto.
        -- exists d. split; [exact Hd |]. apply H2, add_review_In. tauto.
        -- exists c. apply H2, add_review_In. tauto.
      * rewrite Hin. cbn [List.length]. lia.
    + cbn in Hrev. rewrite <- Hrev. apply IH in Hrun; [| exact Hag].
      destruct Hrun as (H1 & H2 & H3 & H4 & H5). cbn [Review.stdin] in H5.
      split; [exact H1 |]. split; [exact H2 |]. split; [| split].
      * intros tr Htr. apply H3 in Htr. destruct Htr as [Htr | (a & Ha & Hr & Ht)];
          [now left | right]. exists a. split; [now right | now split].
      * intros a [<- | Ha] Hr; [congruence | now apply H4].
      * exact H5.
    + cbn in Hrev. rewrite <- Hrev. apply IH in Hrun; [| exact Hag].
      destruct Hrun as (H1 & H2 & H3 & H4 & H5). cbn [Review.stdin] in H5.
      split; [exact H1 |]. split; [exact H2 |]. split; [| split].
      * intros tr Htr. apply H3 in Htr. destruct Htr as [Htr | (a & Ha & Hr & Ht)];
          [now left | right]. exists a. split; [now right | now split].
      * intros a [<- | Ha] Hr; [congruence | now apply H4].
      * exact H5.
Qed.

End ReviewFacts.

Section ProcessFacts.

Variable B : Builtins.
Variables (uid uname : string).

Lemma agrees_refl (g : Graph) : agrees g g.
Proof. intros a p _. reflexivity. Qed.

Lemma process_alignments_returns (g g' : Graph) (t t' : Review.Tty B) :
  Review.process_alignments B (Some g) uid uname t = (Review.Ok g', t') ->
  exists total t1 t2,
    Review.review_loop B total uid uname (Review.axioms_of g) g 1 t1
    = (Review.Ok g', t2)
    /\ Review.stdin B t1 = Review.stdin B t
    /\ Review.stdin B t' = Review.stdin B t2.
Proof.
  unfold Review.process_alignments.
  destruct (Review.load_loop B g (Review.axioms_of g) []) as [als | e];
    [| discriminate].
  unfold Review.bind at 1 2 3 4. unfold Review.print at 1 2 3 4.
  cbn [Review.stdin Review.stdout].
  unfold Review.bind at 1.
  match goal with
  | |- context [Review.review_loop B ?n uid uname ?axs g 1 ?t1] =>
      destruct (Review.review_loop B n uid uname axs g 1 t1) as [[g1 | e] t2] eqn:E;
        [| discriminate]; intros H; exists n, t1, t2
  end.
  unfold Review.bind, Review.print, Review.ret in H. injection H as <- <-.
  split; [exact E | split; reflexivity].
Qed.

(** X23. A review that returns has only added to the graph: every triple of
    the input is kept, and every new triple is the reviewer id, the reviewer
    name, one of the four decisions or a justification, on an [owl:Axiom]
    that has a subject and an object. *)
Theorem review_only_adds_reviews (g g' : Graph) (t t' : Review.Tty B) :
  Review.process_alignments B (Some g) uid uname t = (Review.Ok g', t') ->
  (forall tr, In tr g -> In tr g')
  /\ (forall tr, In tr g' ->
        In tr g
        \/ exists a, In a (Review.axioms_of g) /\ reviewable g a = true
                     /\ review_triple uid uname a tr).
Proof.
  intros H. apply process_alignments_returns in H.
  destruct H as (total & t1 & t2 & Hrun & _ & _).
  apply (review_loop_returns B uid uname total g) in Hrun; [| apply agrees_refl].
  destruct Hrun as (_ & H2 & H3 & _). now split.
Qed.

(** X24. A review that returns has reviewed every mapping: each [owl:Axiom]
    with a subject and an object carries the reviewer id, the reviewer name,
    one of the four decisions and a justification, and two lines were typed
    for each of them. *)
Theorem review_covers_every_mapping (g g' : Graph) (t t' : Review.Tty B) :
  Review.process_alignments B (Some g) uid uname t = (Review.Ok g', t') ->
  (forall a, In a (Review.axioms_of g) -> reviewable g a = true ->
             reviewed uid uname g' a)
  /\ List.length (Review.stdin B t)
     = 2 * List.length (filter (reviewable g) (Review.axioms_of g))
       + List.length (Review.stdin B t').
Proof.
  intros H. apply process_alignments_returns in H.
  destruct H as (total & t1 & t2 & Hrun & Ht1 & Ht2).
  apply (review_loop_returns B uid uname total g) in Hrun; [| apply agrees_refl].
  destruct Hrun as (_ & _ & _ & H4 & H5). split; [exact H4 |].
  now rewrite <- Ht1, Ht2.
Qed.

Lemma alignment_of_raises (g : Graph) (axiom subj obj : Term) :
  match Review.alignment_of B g axiom subj obj with
  | Review.Ok _ =>
      match value g axiom (Some (NS.SSSOM "confidence")) with
      | Some c => truthy B c && is_none (py_float B (str c))
      | None => false
      end = false
  | Review.Err e =>
      e = Review.ValueError
      /\ match value g axiom (Some (NS.SSSOM "confidence")) with
         | Some c => truthy B c && is_none (py_float B (str c))
         | None => false
         end = true
  end.
Proof.
  unfold Review.alignment_of, Review.float_if.
  destruct (value g axiom (Some (NS.SSSOM "confidence"))) as [c |]; [| reflexivity].
  destruct (truthy B c); [| reflexivity].
  destruct (py_float B (str c)); [reflexivity | now split].
Qed.

Lemma load_loop_raises (g : Graph) (axioms : list Term)
      (acc : list (Review.Alignment B)) (a : Term) :
  In a axioms -> bad_confidence B g a = true ->
  Review.load_loop B g axioms acc = Review.Err Review.ValueError.
Proof.
  revert acc. induction axioms as [| x axioms IH]; intros acc Hin Hbad;
    [destruct Hin |].
  cbn [Review.load_loop].
  destruct (value g x (Some (NS.SSSOM "subject_id"))) as [subj |] eqn:Es;
    [destruct (value g x (Some (NS.SSSOM "object_id"))) as [obj |] eqn:Eo |].
  - pose proof (alignment_of_raises g x subj obj) as Hal.
    destruct (Review.alignment_of B g x subj obj) as [al | e].
    + destruct Hin as [<- | Hin]; [| now apply IH].
      unfold bad_confidence in Hbad. apply andb_prop in Hbad. destruct Hbad as [_ Hb].
      congruence.
    + destruct Hal as [-> _]. reflexivity.
  - destruct Hin as [<- | Hin]; [| now apply IH].
    unfold bad_confidence, reviewable in Hbad. rewrite Es, Eo in Hbad. discriminate.
  - destruct Hin as [<- | Hin]; [| now apply IH].
    unfold bad_confidence, reviewable in Hbad. rewrite Es in Hbad. discriminate.
Qed.

(** X25. One mapping whose confidence is no number stops the review before it
    starts: [ValueError] is raised while the mappings are counted, nothing
    is shown and no line is read. *)
Theorem bad_confidence_stops_review (g : Graph) (a : Term) (t : Review.Tty B) :
  In a (Review.axioms_of g) ->
  bad_confidence B g a = true ->
  Review.process_alignments B (Some g) uid uname t
  = (Review.Err Review.ValueError, t).
Proof.
  intros Hin Hbad. unfold Review.process_alignments.
  now rewrite (load_loop_raises g _ [] a Hin Hbad).
Qed.

End ProcessFacts.

Lemma review_only_adds_reviews_witness :
  In (ReviewSample.ax1, NS.SSSOM "subject_id", URIRef "http://a/x")
     (ReviewSample.graph_of (ReviewSample.run ReviewSample.mappings [ "y"; "fine" ])).
Proof.
  refine (proj1 (review_only_adds_reviews Sample.builtins "orcid:1" "Ada"
                   ReviewSample.mappings
                   (ReviewSample.graph_of
                      (ReviewSample.run ReviewSample.mappings [ "y"; "fine" ]))
                   (ReviewSample.tty [ "y"; "fine" ])
                   (snd (ReviewSample.run ReviewSample.mappings [ "y"; "fine" ]))
                   _)
                (ReviewSample.ax1, NS.SSSOM "subject_id", URIRef "http://a/x") _).
  - vm_compute. reflexivity.
  - vm_compute. right. left. reflexivity.
Defined.

Lemma review_covers_every_mapping_witness :
  reviewed "orcid:1" "Ada"
    (ReviewSample.graph_of (ReviewSample.run ReviewSample.mappings [ "y"; "fine" ]))
    ReviewSample.ax1.
Proof.
  refine (proj1 (review_covers_every_mapping Sample.builtins "orcid:1" "Ada"
                   ReviewSample.mappings
                   (ReviewSample.graph_of
                      (ReviewSample.run ReviewSample.mappings [ "y"; "fine" ]))
                   (ReviewSample.tty [ "y"; "fine" ])
                   (snd (ReviewSample.run ReviewSample.mappings [ "y"; "fine" ]))
                   _)
                ReviewSample.ax1 _ _).
  - vm_compute. reflexivity.
  - vm_compute. left. reflexivity.
  - vm_compute. reflexivity.
Defined.

Lemma bad_confidence_stops_review_witness :
  ReviewSample.run ReviewSample.bad_mappings [ "y"; "fine" ]
  = (Review.Err Review.ValueError, ReviewSample.tty [ "y"; "fine" ]).
Proof.
  refine (bad_confidence_stops_review Sample.builtins "orcid:1" "Ada"
            ReviewSample.bad_mappings ReviewSample.ax1
            (ReviewSample.tty [ "y"; "fine" ]) _ _).
  - vm_compute. left. reflexivity.
  - vm_compute. reflexivity.
Defined.
